(** * cuisinier: validators, fields and models

    A shallow embedding of the validation engine of the repository
    ([validator.ts], [field.ts], [model.ts], [utils.ts]) and the properties
    its specification states about it.

    Modelling conventions.
    - A JavaScript value is a [value]: [undefined], [null], booleans, numbers,
      strings, arrays, objects, and the objects and functions of the host
      ([VHost]): the builtin prototypes and their members, which a property
      read can reach.  The engine never computes with the payload of a
      number, so a number carries an integer.  A string is a sequence of
      code units below 256, arrays have no holes.
    - An object is its prototype and the list of its own enumerable
      properties, in the order [Object.keys] enumerates them: array-index
      keys first, ascending, then the other keys in insertion order.  The
      keys of an object are unique; the statements that depend on it say so
      ([NoDup]).  The prototype of an object is an object or [null];
      [VObject] is an object whose prototype is [Object.prototype], as object
      literals and [JSON.parse] make them.
    - What the host provides is a parameter ([Host]): for each of its
      objects, the members a property read finds, what an assignment that
      reaches it does, and so on.  Every statement holds for every host;
      [ecma_host] is the one of the examples.
    - A validator is a JavaScript function: it may return, throw, and touch
      the world around it.  It is a function into the monad [M W], which
      threads a world state of an arbitrary type [W] and carries the thrown
      value ([Throw]).  What a validator was called on, and whether it was
      called at all, is observable through that state.
    - A thrown value is a [ValidationError], a [ValidationError.Named], or
      anything else ([OtherError]).
    - [Model.extend] builds its definition with [Object.assign] on a fresh
      object; the objects that hold definitions live in a store
      ([Module Store]), and models refer to them by location. *)

From Stdlib Require Import String Ascii ZArith NArith List Bool Lia.
From stdpp Require Import base option list strings pretty gmap.

Local Open Scope string_scope.
Local Open Scope list_scope.
Set Warnings "-register-all".

(** ** Values *)

Inductive value : Type :=
| VUndefined
| VNull
| VBoolean (b : bool)
| VNumber (n : Z)
| VString (s : string)
| VArray (elements : list value)
| VObjectWith (prototype : value) (properties : list (string * value))
| VHost (id : string).

(** The builtin prototypes. *)
Definition Object_prototype : value := VHost "Object.prototype".
Definition Array_prototype : value := VHost "Array.prototype".
Definition String_prototype : value := VHost "String.prototype".
Definition Number_prototype : value := VHost "Number.prototype".
Definition Boolean_prototype : value := VHost "Boolean.prototype".

(** An object whose prototype is [Object.prototype]. *)
Abbreviation VObject := (VObjectWith Object_prototype).

(** [v === undefined] and [v === null]. *)
Definition is_undefined (v : value) : bool :=
  match v with VUndefined => true | _ => false end.

Definition is_null (v : value) : bool :=
  match v with VNull => true | _ => false end.

(** The type of [v] is Object. *)
Definition is_Object (v : value) : bool :=
  match v with
  | VArray _ | VObjectWith _ _ | VHost _ => true
  | _ => false
  end.

(** ** Objects as ordered property lists *)

Section Objects.
Context {A : Type}.

(** [o[k]] on own properties. *)
Fixpoint obj_get (k : string) (o : list (string * A)) : option A :=
  match o with
  | [] => None
  | (k', a) :: o' => if String.eqb k' k then Some a else obj_get k o'
  end.

(** [Object.keys(o)]. *)
Definition Object_keys (o : list (string * A)) : list string := map fst o.

(** Overwrites the value of an existing key, keeping its position. *)
Fixpoint obj_replace (k : string) (a : A) (o : list (string * A))
  : list (string * A) :=
  match o with
  | [] => []
  | (k', a') :: o' =>
      if String.eqb k' k then (k', a) :: o' else (k', a') :: obj_replace k a o'
  end.
End Objects.

(** An array index is a key that is the decimal rendering of an integer
    below [2^32 - 1]. *)
Definition digit_of (c : ascii) : option N :=
  let n := N_of_ascii c in
  if ((48 <=? n) && (n <=? 57))%N then Some (n - 48)%N else None.

Fixpoint parse_digits (s : string) (acc : N) : option N :=
  match s with
  | EmptyString => Some acc
  | String c s' =>
      match digit_of c with
      | Some d => parse_digits s' (10 * acc + d)%N
      | None => None
      end
  end.

Definition array_index (k : string) : option N :=
  match k with
  | EmptyString => None
  | _ =>
      match parse_digits k 0 with
      | Some n =>
          if String.eqb (pretty n) k && (n <? 4294967295)%N then Some n
          else None
      | None => None
      end
  end.

Section ObjectSet.
Context {A : Type}.

(** Places a new array-index key after the smaller indices. *)
Fixpoint insert_index (n : N) (k : string) (a : A) (o : list (string * A))
  : list (string * A) :=
  match o with
  | [] => [(k, a)]
  | (k', a') :: o' =>
      match array_index k' with
      | Some n' =>
          if (n' <? n)%N then (k', a') :: insert_index n k a o'
          else (k, a) :: o
      | None => (k, a) :: o
      end
  end.

(** Defines the own property [k] of an object: an existing key keeps its
    place, a new array index goes among the indices, any other new key goes
    last. *)
Definition obj_define (k : string) (a : A) (o : list (string * A))
  : list (string * A) :=
  match obj_get k o with
  | Some _ => obj_replace k a o
  | None =>
      match array_index k with
      | Some n => insert_index n k a o
      | None => o ++ [(k, a)]
      end
  end.

(** Defines the properties [src], in order, on [target]. *)
Definition define_props (target src : list (string * A))
  : list (string * A) :=
  fold_left (fun t kv => obj_define kv.1 kv.2 t) src target.
End ObjectSet.

(** ** Thrown values *)

Inductive thrown : Type :=
| ValidationError (assertionMessage : string)
| Named (name : string) (assertionMessage : string)
| OtherError (message : string).

(** [e instanceof ValidationError]; [Named] is a subclass. *)
Definition instanceof_ValidationError (e : thrown) : bool :=
  match e with
  | ValidationError _ | Named _ _ => true
  | OtherError _ => false
  end.

Definition instanceof_Named (e : thrown) : bool :=
  match e with Named _ _ => true | _ => false end.

(** [e.message], as the constructors build it. *)
Definition message (e : thrown) : string :=
  match e with
  | ValidationError m => "Expected " +:+ m +:+ "."
  | Named n m => n +:+ " expected " +:+ m +:+ "."
  | OtherError msg => msg
  end.

(** ** The monad of JavaScript computations *)

Inductive outcome (A : Type) : Type :=
| Return (a : A)
| Throw (e : thrown).
Arguments Return {A} a.
Arguments Throw {A} e.

Definition M (W A : Type) : Type := W -> outcome A * W.

Definition ret {W A} (a : A) : M W A := fun s => (Return a, s).

Definition throw {W A} (e : thrown) : M W A := fun s => (Throw e, s).

Definition bind {W A B} (c : M W A) (k : A -> M W B) : M W B :=
  fun s =>
    match c s with
    | (Return a, s') => k a s'
    | (Throw e, s') => (Throw e, s')
    end.

(** [try { return c } catch (e) { h e }]. *)
Definition try_catch {W A} (c : M W A) (h : thrown -> M W A) : M W A :=
  fun s =>
    match c s with
    | (Return a, s') => (Return a, s')
    | (Throw e, s') => h e s'
    end.

Notation "'let*' x ':=' c 'in' k" := (bind c (fun x => k))
  (at level 10, x name, c at level 100, k at level 200).


(** A pure computation, run in place. *)
Definition lift {W A} (r : outcome A) : M W A := fun s => (r, s).

(** ** The host *)

(** What a property read finds when its lookup along a prototype chain
    reaches an object of the host: a data property, the getter of
    [__proto__], which answers with the prototype of the object the read
    started from, nothing, or a getter that throws. *)
Inductive member : Type :=
| Member (v : value)
| PrototypeGetter
| NoMember
| MemberThrows (e : thrown).

(** What an assignment [o[k] = v], where [o] has no own property [k], does
    when its lookup reaches an object of the host: it defines [k] on [o]
    (no member, or a writable data property), it calls the setter of
    [__proto__], it calls a setter that leaves [o] as it is, or it throws
    (a property that cannot be written, in strict code). *)
Inductive assignment : Type :=
| SetOwn
| SetPrototype
| SetIgnored
| SetThrows (e : thrown).

Class Host : Type := {
  (** [typeof]: ["object"] or ["function"]. *)
  host_typeof : string -> string;
  (** [Object.getPrototypeOf]. *)
  host_prototype : string -> value;
  (** The lookup of a key, from the host object up its prototype chain. *)
  host_member : string -> string -> member;
  (** The same lookup, for an assignment. *)
  host_set : string -> string -> assignment;
  (** The elements, when [Array.isArray] holds of the host object. *)
  host_array : string -> option (list value);
  (** The own enumerable properties of the host object. *)
  host_enumerable : string -> list (string * value)
}.

(** ** Property reads and writes *)

(** The own indexed properties of an array, or the characters of a string,
    keyed by their index. *)
Fixpoint index_props {A} (l : list A) (index : nat) : list (string * A) :=
  match l with
  | [] => []
  | a :: l' => (pretty index, a) :: index_props l' (S index)
  end.

Fixpoint chars (s : string) : list value :=
  match s with
  | EmptyString => []
  | String c s' => VString (String c EmptyString) :: chars s'
  end.

(** The own properties a read finds on an array and on a string. *)
Definition array_own (l : list value) (key : string) : option value :=
  if String.eqb key "length" then Some (VNumber (Z.of_nat (length l)))
  else obj_get key (index_props l 0).

Definition string_own (s : string) (key : string) : option value :=
  if String.eqb key "length" then Some (VNumber (Z.of_nat (String.length s)))
  else obj_get key (index_props (chars s) 0).

Definition own_property (data : value) (key : string) : option value :=
  match data with
  | VObjectWith _ o => obj_get key o
  | VArray l => array_own l key
  | VString s => string_own s key
  | _ => None
  end.

Definition from_option_undefined (o : option value) : value :=
  match o with Some v => v | None => VUndefined end.

Section Properties.
Context {host : Host}.

(** The [typeof] operator. *)
Definition typeof (v : value) : string :=
  match v with
  | VUndefined => "undefined"
  | VNull => "object"
  | VBoolean _ => "boolean"
  | VNumber _ => "number"
  | VString _ => "string"
  | VArray _ => "object"
  | VObjectWith _ _ => "object"
  | VHost id => host_typeof id
  end.

(** The elements of [v] when [Array.isArray(v)]. *)
Definition array_elements (v : value) : option (list value) :=
  match v with
  | VArray l => Some l
  | VHost id => host_array id
  | _ => None
  end.

(** [Array.isArray]. *)
Definition Array_isArray (v : value) : bool :=
  match array_elements v with Some _ => true | None => false end.

(** The prototype of what a value is when a property of it is read. *)
Definition prototype_of (data : value) : value :=
  match data with
  | VObjectWith p _ => p
  | VArray _ => Array_prototype
  | VString _ => String_prototype
  | VNumber _ => Number_prototype
  | VBoolean _ => Boolean_prototype
  | VHost id => host_prototype id
  | VUndefined | VNull => VNull
  end.

(** The lookup of [key] that has reached the host object [id], for a read
    that started from an object of prototype [rp]. *)
Definition host_lookup (id : string) (rp : value) (key : string)
  : outcome value :=
  match host_member id key with
  | Member v => Return v
  | PrototypeGetter => Return rp
  | NoMember => Return VUndefined
  | MemberThrows e => Throw e
  end.

(** The lookup of [key] from the object [p] up its prototype chain. *)
Fixpoint chain_get (p : value) (rp : value) (key : string) : outcome value :=
  match p with
  | VObjectWith p' o =>
      match obj_get key o with
      | Some v => Return v
      | None => chain_get p' rp key
      end
  | VArray l =>
      match array_own l key with
      | Some v => Return v
      | None => host_lookup "Array.prototype" rp key
      end
  | VHost id => host_lookup id rp key
  | _ => Return VUndefined
  end.

(** The same lookup, for an assignment: the data properties of the values
    modelled are writable. *)
Fixpoint chain_set (p : value) (key : string) : assignment :=
  match p with
  | VObjectWith p' o =>
      match obj_get key o with
      | Some _ => SetOwn
      | None => chain_set p' key
      end
  | VArray l =>
      match array_own l key with
      | Some _ => SetOwn
      | None => host_set "Array.prototype" key
      end
  | VHost id => host_set id key
  | _ => SetOwn
  end.

(** [o[key] = v] on an object built by the engine, in strict code: [o] is
    its prototype and its properties.  The setter of [__proto__] changes the
    prototype when [v] is an object or [null] and does nothing otherwise. *)
Definition set_property (key : string) (v : value)
    (o : value * list (string * value))
  : outcome (value * list (string * value)) :=
  match obj_get key o.2 with
  | Some _ => Return (o.1, obj_define key v o.2)
  | None =>
      match chain_set o.1 key with
      | SetOwn => Return (o.1, obj_define key v o.2)
      | SetPrototype =>
          if is_Object v || is_null v then Return (v, o.2) else Return o
      | SetIgnored => Return o
      | SetThrows e => Throw e
      end
  end.

(** The own enumerable properties [Object.assign] copies from a source;
    [undefined] and [null] sources are skipped, numbers and booleans have
    none. *)
Definition own_enumerable (v : value) : list (string * value) :=
  match v with
  | VObjectWith _ o => o
  | VArray l => index_props l 0
  | VString s => index_props (chars s) 0
  | VHost id => host_enumerable id
  | _ => []
  end.

(** One source of [Object.assign]: its properties are assigned in order,
    up to the first assignment that throws. *)
Fixpoint assign_properties (target : value * list (string * value))
    (src : list (string * value))
  : outcome (value * list (string * value)) :=
  match src with
  | [] => Return target
  | (k, v) :: src' =>
      match set_property k v target with
      | Return target' => assign_properties target' src'
      | Throw e => Throw e
      end
  end.

(** [Object.assign({}, ...sources)]. *)
Fixpoint Object_assign (target : value * list (string * value))
    (sources : list value) : outcome (value * list (string * value)) :=
  match sources with
  | [] => Return target
  | source :: sources' =>
      match assign_properties target (own_enumerable source) with
      | Return target' => Object_assign target' sources'
      | Throw e => Throw e
      end
  end.
End Properties.

Section Engine.
Context {host : Host} {W : Type}.

(** [data[key]].  Reading a property of [undefined] or [null] throws a
    [TypeError]; an own property is read first, then the prototype chain. *)
Definition get_property (data : value) (key : string) : M W value :=
  match data with
  | VUndefined | VNull => throw (OtherError "TypeError")
  | VHost id => lift (host_lookup id (host_prototype id) key)
  | _ =>
      match own_property data key with
      | Some v => ret v
      | None => lift (chain_get (prototype_of data) (prototype_of data) key)
      end
  end.

(** ** validator.ts *)

(** [type Validator<T> = (value: any) => T]. *)
Definition Validator : Type := value -> M W value.

Definition wrapError (validator : Validator) (error : string) : Validator :=
  fun value =>
    try_catch (validator value)
      (fun e =>
         match e with
         | ValidationError assertionMessage
         | Named _ assertionMessage =>
             throw (ValidationError (error +:+ " " +:+ assertionMessage))
         | OtherError _ => throw e
         end).

Definition lazy (deferred : unit -> M W Validator) : Validator :=
  fun value => let* validator := deferred tt in validator value.

Definition optional (validator : Validator) : Validator :=
  fun value =>
    if is_undefined value then ret value
    else wrapError validator "undefined or" value.

Definition nullable (validator : Validator) : Validator :=
  fun value =>
    if is_null value then ret value
    else wrapError validator "null or" value.

Definition blankable (validate : Validator) : Validator :=
  fun value =>
    if is_null value || is_undefined value then ret VUndefined
    else wrapError validate "null, undefined, or" value.

(** [values.map(callback)], from [index] on: the callback runs on the
    elements in order, and the first throw ends the loop. *)
Fixpoint Array_map (callback : value -> nat -> M W value)
    (values : list value) (index : nat) : M W (list value) :=
  match values with
  | [] => ret []
  | value :: rest =>
      let* r := callback value index in
      let* rs := Array_map callback rest (S index) in
      ret (r :: rs)
  end.

(** The arrow function [arrayOf] passes to [map]. *)
Definition arrayOf_callback (validator : Validator)
  : value -> nat -> M W value :=
  fun value index =>
    wrapError validator
      ("an array with value at [" +:+ pretty index +:+ "], that is") value.

Definition arrayOf (validator : Validator) : Validator :=
  fun values =>
    match array_elements values with
    | Some elements (* Array.isArray(values) *) =>
        let* rs := Array_map (arrayOf_callback validator) elements 0 in
        ret (VArray rs)
    | None => throw (ValidationError "an array")
    end.

Definition validationMessageOf (e : thrown) : M W string :=
  match e with
  | Named name assertionMessage =>
      ret (name +:+ ", that is " +:+ assertionMessage)
  | ValidationError assertionMessage => ret assertionMessage
  | OtherError _ => throw e
  end.

(** [try { return c } catch (e) { x = h e }]: the value returned, or the
    [x] the rest of the function goes on with. *)
Definition try_return {A B} (c : M W A) (h : thrown -> M W B) : M W (A + B) :=
  fun s =>
    match c s with
    | (Return a, s') => (Return (inl a), s')
    | (Throw e, s') =>
        match h e s' with
        | (Return b, s'') => (Return (inr b), s'')
        | (Throw e', s'') => (Throw e', s'')
        end
    end.

Definition union (a b : Validator) : Validator :=
  fun data =>
    let* ra := try_return (a data) validationMessageOf in
    match ra with
    | inl result => ret result
    | inr messageA =>
        let* rb := try_return (b data) validationMessageOf in
        match rb with
        | inl result => ret result
        | inr messageB =>
            throw (ValidationError (messageA +:+ "; or " +:+ messageB))
        end
    end.

(** [Object.assign({}, a(data), b(data))]: the arguments are evaluated
    left to right, then assigned to the empty object. *)
Definition intersect (a b : Validator) : Validator :=
  fun data =>
    let* ra := a data in
    let* rb := b data in
    let* o := lift (Object_assign (Object_prototype, []) [ra; rb]) in
    ret (VObjectWith o.1 o.2).
End Engine.
Arguments Validator W : clear implicits.

(** ** utils.ts *)

Definition is_upper (c : ascii) : bool :=
  let n := N_of_ascii c in ((65 <=? n) && (n <=? 90))%N.

Definition is_digit (c : ascii) : bool :=
  let n := N_of_ascii c in ((48 <=? n) && (n <=? 57))%N.

(** [toLowerCase] on one code unit below 256: the letters [A-Z], and the
    letters from U+00C0 to U+00DE but the sign U+00D7, have their lower
    case 32 further. *)
Definition toLowerCase (c : ascii) : ascii :=
  let n := N_of_ascii c in
  if ((65 <=? n) && (n <=? 90) || (192 <=? n) && (n <=? 214)
      || (216 <=? n) && (n <=? 222))%N
  then ascii_of_N (n + 32) else c.

(** [rest.replace(/[A-Z]|\d+/g, m => `_${m.toLowerCase()}`)]: an upper-case
    letter is a match of its own, a maximal run of digits is one match;
    [in_digits] tells that the previous character belongs to such a run. *)
Fixpoint replace_matches (rest : string) (in_digits : bool) : string :=
  match rest with
  | EmptyString => EmptyString
  | String c rest' =>
      if is_upper c then
        String "_" (String (toLowerCase c) (replace_matches rest' false))
      else if is_digit c then
        if in_digits then String c (replace_matches rest' true)
        else String "_" (String c (replace_matches rest' true))
      else String c (replace_matches rest' false)
  end.

Definition snake (key : string) : string :=
  match key with
  | EmptyString => EmptyString
  | String first rest => String (toLowerCase first) (replace_matches rest false)
  end.

Section Schema.
Context {host : Host} {W : Type}.

(** ** field.ts *)

(** [interface Field<T>]: a validator and a way to pluck.  A field is an
    object; [as_prototype] is what an assignment does when its lookup along
    a prototype chain starts at the field. *)
Record Field : Type := {
  validator : Validator W;
  pluck : string -> value -> M W value;
  as_prototype : string -> assignment
}.

(** The lookup of an assignment from an instance of a class with the own
    properties and methods [members], all writable, whose prototype chain
    goes on to [Object.prototype]. *)
Definition instance_set (members : list string) (key : string) : assignment :=
  if bool_decide (key ∈ members) then SetOwn
  else host_set "Object.prototype" key.

Definition MapField (validator : Validator W)
    (toSourceKey : string -> string) : Field :=
  {| validator := validator;
     pluck := fun key data =>
       let sourceKey := toSourceKey key in
       let* value := get_property data sourceKey in
       wrapError validator
         ("an object with attribute '" +:+ sourceKey +:+ "', that is")
         value;
     as_prototype :=
       instance_set ["validator"; "toSourceKey"; "constructor"; "pluck"] |}.

Definition field (validator : Validator W) : Field :=
  MapField validator (fun key => key).

Definition fieldWithKey (key : string) (validator : Validator W) : Field :=
  MapField validator (fun _ => key).

Definition fieldFromSnake (validator : Validator W) : Field :=
  MapField validator snake.

Definition MultiField (validator : Validator W) : Field :=
  {| validator := validator;
     pluck := fun _ data => validator data;
     as_prototype := instance_set ["validator"; "constructor"; "pluck"] |}.

Definition multiField (validator : Validator W) : Field :=
  MultiField validator.

(** ** model.ts *)

Record Model : Type := {
  name : option string;
  definition : list (string * Field)
}.

(** The loop of [validate] over [Object.keys(this.definition)]; [result] is
    the prototype and the properties of the object being built. *)
Fixpoint pluck_keys (definition : list (string * Field)) (data : value)
    (keys : list string) (result : value * list (string * value))
  : M W (value * list (string * value)) :=
  match keys with
  | [] => ret result
  | key :: keys' =>
      match obj_get key definition with
      | Some field =>
          let* value := pluck field key data in
          let* result' :=
            if is_undefined value then ret result
            else lift (set_property key value result) in
          pluck_keys definition data keys' result'
      | None => throw (OtherError "TypeError")
      end
  end.

Definition validate (this : Model) (data : value) : M W value :=
  try_catch
    (if negb (String.eqb (typeof data) "object") then
       throw (ValidationError "an object")
     else
       let* result := pluck_keys (definition this) data
                   (Object_keys (definition this)) (Object_prototype, []) in
       ret (VObjectWith result.1 result.2))
    (fun e =>
       match e, name this with
       | (ValidationError assertionMessage | Named _ assertionMessage),
         Some name =>
           throw (Named name assertionMessage)
       | _, _ => throw e
       end).

Definition model (name : option string) (definition : list (string * Field))
  : Model :=
  {| name := name; definition := definition |}.
End Schema.
Arguments Field W : clear implicits.
Arguments Model W : clear implicits.

(** ** validators.ts: the leaf validators used in the examples *)

Module validators.
Definition string {host : Host} {W} : Validator W :=
  fun value =>
    if negb (String.eqb (typeof value) "string") then
      throw (ValidationError "a string")
    else ret value.

Definition number {host : Host} {W} : Validator W :=
  fun value =>
    if negb (String.eqb (typeof value) "number") then
      throw (ValidationError "a number")
    else ret value.

Definition boolean {host : Host} {W} : Validator W :=
  fun value =>
    if negb (String.eqb (typeof value) "boolean") then
      throw (ValidationError "a boolean")
    else ret value.
End validators.

(** ** Models over a store of definition objects

    [model(name, definition)] keeps a reference to the definition object it
    is given, and [extend] fills a new object with [Object.assign].  Here a
    definition object lives in a store at a location, a model holds the
    location, and [Object.assign] writes to the store. *)

Module Store.
Local Abbreviation validate_definition := validate.

Record ModelObject : Type := {
  name : option string;
  definition : positive
}.

(** The second argument of [extend]: a model ([extension instanceof
    Model]) or a definition object. *)
Inductive Extension : Type :=
| ExtModel (m : ModelObject)
| ExtDefinition (d : positive).

(** [extension instanceof Model ? extension.definition : extension]. *)
Definition extension_definition (extension : Extension) : positive :=
  match extension with
  | ExtModel m => definition m
  | ExtDefinition d => d
  end.

Section WithWorld.
Context {host : Host} {W : Type}.

(** A definition object: its prototype, [None] for [Object.prototype] and
    a field once the setter of [__proto__] was given one, and its own
    properties. *)
Record DefinitionObject : Type := {
  prototype : option (Field W);
  properties : list (string * Field W)
}.

Local Abbreviation store := (gmap positive DefinitionObject).

(** [target[key] = field] on a definition object. *)
Definition definition_set (key : string) (field : Field W)
    (target : DefinitionObject) : outcome DefinitionObject :=
  let defined :=
    {| prototype := prototype target;
       properties := obj_define key field (properties target) |} in
  match obj_get key (properties target) with
  | Some _ => Return defined
  | None =>
      match
        match prototype target with
        | None => host_set "Object.prototype" key
        | Some p => as_prototype p key
        end
      with
      | SetOwn => Return defined
      | SetPrototype =>
          Return {| prototype := Some field; properties := properties target |}
      | SetIgnored => Return target
      | SetThrows e => Throw e
      end
  end.

(** One source of [Object.assign]: the target as the assignments leave it,
    up to the first one that throws. *)
Fixpoint assign_definition (target : DefinitionObject)
    (src : list (string * Field W)) : outcome unit * DefinitionObject :=
  match src with
  | [] => (Return tt, target)
  | (key, field) :: src' =>
      match definition_set key field target with
      | Return target' => assign_definition target' src'
      | Throw e => (Throw e, target)
      end
  end.

(** [Object.assign(target, ...sources)]: each source in turn is read from
    the store and assigned to the target. *)
Fixpoint Object_assign (target : positive) (sources : list positive)
    (h : store) : outcome unit * store :=
  match sources with
  | [] => (Return tt, h)
  | source :: sources' =>
      match h !! source, h !! target with
      | Some src, Some t =>
          match assign_definition t (properties src) with
          | (Return _, t') => Object_assign target sources' (<[target := t']> h)
          | (Throw e, t') => (Throw e, <[target := t']> h)
          end
      | _, _ => (Throw (OtherError "TypeError"), h)
      end
  end.

Definition extend (this : ModelObject) (name : option string)
    (extension : Extension) (h : store) : outcome ModelObject * store :=
  let definition' := extension_definition extension in
  let target := fresh (dom h) in
  match
    Object_assign target [definition this; definition']
      (<[target := {| prototype := None; properties := [] |}]> h)
  with
  | (Return _, h') => (Return {| name := name; definition := target |}, h')
  | (Throw e, h') => (Throw e, h')
  end.

(** [this.validate(data)] with [this.definition] read from the store. *)
Definition validate (h : store) (this : ModelObject) (data : value)
  : M W value :=
  match h !! definition this with
  | Some d => validate_definition (model (name this) (properties d)) data
  | None => throw (OtherError "TypeError")
  end.
End WithWorld.
Arguments DefinitionObject W : clear implicits.
End Store.

(** ** Runs of the engine, for stating its properties *)

(** [all_return f l s rs s']: started in world [s], [f] returns on every
    element of [l] in turn, with results [rs], and leaves the world [s']. *)
Inductive all_return {W A B} (f : A -> M W B)
  : list A -> W -> list B -> W -> Prop :=
| all_return_nil s : all_return f [] s [] s
| all_return_cons x l s r s1 rs s2 :
    f x s = (Return r, s1) ->
    all_return f l s1 rs s2 ->
    all_return f (x :: l) s (r :: rs) s2.

(** The assignments of [validate]: the values plucked, but [undefined], are
    assigned to the result under their keys, up to the first assignment
    that throws. *)
Fixpoint assign_plucked {host : Host} (result : value * list (string * value))
    (kvs : list (string * value))
  : outcome (value * list (string * value)) :=
  match kvs with
  | [] => Return result
  | (k, v) :: kvs' =>
      match
        if is_undefined v then Return result else set_property k v result
      with
      | Return result' => assign_plucked result' kvs'
      | Throw e => Throw e
      end
  end.

(** The values plucked from [data] by the fields of a definition, in
    definition order: every pluck returns, and the assignments of the values
    to a new object do not throw. *)
Definition plucked {host : Host} {W} (data : value) (d : list (string * Field W))
    (s : W) (vs : list value) (s' : W) : Prop :=
  all_return (fun kf => pluck kf.2 kf.1 data) d s vs s' /\
  exists r,
    assign_plucked (Object_prototype, []) (zip (Object_keys d) vs) = Return r.

(** The properties defined from plucked values: [undefined] is skipped. *)
Definition collect (result : list (string * value))
    (kvs : list (string * value)) : list (string * value) :=
  fold_left
    (fun r kv => if is_undefined kv.2 then r else obj_define kv.1 kv.2 r)
    kvs result.

(** [holds_plucked keys vs o]: the object [o] has exactly those of the
    [keys] whose plucked value, the one of [vs] at the same position, is not
    [undefined], each bound to that value. *)
Definition holds_plucked (keys : list string) (vs : list value)
    (o : list (string * value)) : Prop :=
  NoDup (Object_keys o) /\
  forall k, obj_get k o =
    match obj_get k (zip keys vs) with
    | Some v => if is_undefined v then None else Some v
    | None => None
    end.

(** The loop of [validate], entry by entry. *)
Fixpoint pluck_entries {host : Host} {W} (d : list (string * Field W)) (data : value)
    (result : value * list (string * value))
  : M W (value * list (string * value)) :=
  match d with
  | [] => ret result
  | (key, field) :: d' =>
      let* value := pluck field key data in
      let* result' :=
        if is_undefined value then ret result
        else lift (set_property key value result) in
      pluck_entries d' data result'
  end.

(** The message of what a computation throws. *)
Definition message_of {W A} (r : outcome A * W) : option string :=
  match r.1 with
  | Throw e => Some (message e)
  | Return _ => None
  end.


(** [e.assertionMessage], for a validation-kind error. *)
Definition assertion (e : thrown) : option string :=
  match e with
  | ValidationError m | Named _ m => Some m
  | OtherError _ => None
  end.

(** Case analysis on every string comparison in the goal. *)
Ltac eqb_cases :=
  repeat match goal with
    | |- context [String.eqb ?a ?b] => destruct (String.eqb_spec a b); subst
    end;
  simpl; try congruence; try done.

(** ** The host of the examples *)

(** The members every ECMAScript host has on [Object.prototype]. *)
Definition Object_prototype_members : list string :=
  ["constructor"; "hasOwnProperty"; "isPrototypeOf"; "propertyIsEnumerable";
   "toLocaleString"; "toString"; "valueOf"; "__defineGetter__";
   "__defineSetter__"; "__lookupGetter__"; "__lookupSetter__"].

Definition builtin_prototypes : list string :=
  ["Object.prototype"; "Array.prototype"; "String.prototype";
   "Number.prototype"; "Boolean.prototype"; "Function.prototype"].

(** The constructor a builtin object inherits or holds: that of a
    prototype is its function, that of a function is [Function]. *)
Definition constructor_of (id : string) : string :=
  if String.eqb id "Object.prototype" then "Object"
  else if String.eqb id "Array.prototype" then "Array"
  else if String.eqb id "String.prototype" then "String"
  else if String.eqb id "Number.prototype" then "Number"
  else if String.eqb id "Boolean.prototype" then "Boolean"
  else "Function".

(** A host where every lookup ends in [Object.prototype] as ECMAScript has
    it: its function members, all writable, and the accessor [__proto__].
    Of the members the other builtin objects have of their own, a read
    finds [constructor] only, and an assignment knows that [name] and
    [length] of a function and [length] of [String.prototype] cannot be
    written; the examples read and write no other. *)
Definition ecma_host : Host :=
  {| host_typeof id :=
       if bool_decide (id ∈ builtin_prototypes)
          && negb (String.eqb id "Function.prototype")
       then "object" else "function";
     host_prototype id :=
       if String.eqb id "Object.prototype" then VNull
       else if bool_decide (id ∈ builtin_prototypes) then Object_prototype
       else VHost "Function.prototype";
     host_member id key :=
       if String.eqb key "__proto__" then PrototypeGetter
       else if String.eqb key "constructor"
       then Member (VHost (constructor_of id))
       else if bool_decide (key ∈ Object_prototype_members)
       then Member (VHost ("Object.prototype." +:+ key))
       else NoMember;
     host_set id key :=
       if String.eqb key "__proto__" then SetPrototype
       else if (negb (bool_decide (id ∈ builtin_prototypes))
                || String.eqb id "Function.prototype"
                || String.eqb id "String.prototype")
               && (String.eqb key "length"
                   || String.eqb key "name"
                      && negb (String.eqb id "String.prototype"))
       then SetThrows (OtherError "TypeError")
       else SetOwn;
     host_array id :=
       if String.eqb id "Array.prototype" then Some [] else None;
     host_enumerable id := [] |}.

#[global] Existing Instance ecma_host.

(** ** Schemas of the test suite *)

(** [v => number(v) + 1], on the integers the examples use. *)
Definition number_plus_one {host : Host} {W} : Validator W :=
  fun v =>
    let* n := validators.number v in
    match n with
    | VNumber z => ret (VNumber (z + 1))
    | _ => ret n
    end.

(** A model of the test suite: a snake-case field, a nested model under a
    constant key, and a blankable field. *)
Definition example_model (nm : option string) : Model unit :=
  model nm
    [("aKey", fieldFromSnake validators.string);
     ("c", fieldWithKey "d"
             (validate (model None [("e", field number_plus_one)])));
     ("b", field (blankable validators.string))].

(** The two named models of the test suite of [union] and [intersect]. *)
Definition ModelA {host : Host} {W} : Model W :=
  model (Some "ModelA") [("a", field validators.string)].

Definition ModelB {host : Host} {W} : Model W :=
  model (Some "ModelB") [("b", field validators.number)].

(** ** Closed forms, for stating further properties *)

(** What [Object.assign] makes of a target [base] and a source [ext] when no
    key of [ext] is an array index: the entries of [base] in their order,
    each with the value [ext] has for its key if it has one, then the entries
    of [ext] whose key is new, in their order. *)
Definition merged {A} (base ext : list (string * A)) : list (string * A) :=
  map (fun kv => (kv.1, default kv.2 (obj_get kv.1 ext))) base ++
  filter (fun kv => kv.1 ∉ Object_keys base) ext.

(** [p] holds of every character of [s]. *)
Fixpoint string_forallb (p : ascii -> bool) (s : string) : bool :=
  match s with
  | EmptyString => true
  | String c s' => p c && string_forallb p s'
  end.

(** [s] without its underscores, in lower case. *)
Fixpoint letters (s : string) : string :=
  match s with
  | EmptyString => EmptyString
  | String c s' =>
      if Ascii.eqb c "_" then letters s' else String (toLowerCase c) (letters s')
  end.

(** * Properties *)

(** ** Objects *)

Section ObjectFacts.
Context {A : Type}.
Implicit Types (o target src : list (string * A)) (k j : string) (a : A).

Lemma obj_get_None k o : obj_get k o = None <-> k ∉ Object_keys o.
Proof.
  induction o as [|[k' a'] o IH]; simpl.
  - split; [intros _; apply not_elem_of_nil | done].
  - rewrite not_elem_of_cons. destruct (String.eqb_spec k' k) as [->|Hne].
    + split; [done | intros [? _]; done].
    + rewrite IH. split; [intros ?; split; congruence | tauto].
Qed.

Lemma obj_get_elem_of k a o :
  NoDup (Object_keys o) -> (k, a) ∈ o -> obj_get k o = Some a.
Proof.
  induction o as [|[k' a'] o IH]; simpl; intros Hnd Hin.
  - by apply elem_of_nil in Hin.
  - apply NoDup_cons in Hnd as [Hk' Hnd].
    apply elem_of_cons in Hin as [[= -> ->]|Hin].
    + by rewrite String.eqb_refl.
    + destruct (String.eqb_spec k' k) as [->|Hne]; [|by apply IH].
      exfalso. apply Hk'. apply list_elem_of_fmap. by exists (k, a).
Qed.

Lemma obj_get_replace k a j o :
  obj_get j (obj_replace k a o) =
  if String.eqb k j then (fun _ => a) <$> obj_get k o else obj_get j o.
Proof.
  induction o as [|[k' a'] o IH]; simpl.
  - eqb_cases.
  - destruct (String.eqb_spec k' k) as [->|Hne]; simpl.
    + rewrite ?String.eqb_refl. eqb_cases.
    + rewrite IH. eqb_cases.
Qed.

Lemma obj_keys_replace k a o : Object_keys (obj_replace k a o) = Object_keys o.
Proof.
  induction o as [|[k' a'] o IH]; simpl; [done|].
  destruct (String.eqb k' k); simpl; [done | by rewrite IH].
Qed.

Lemma obj_get_insert_index n k a j o :
  obj_get k o = None ->
  obj_get j (insert_index n k a o) =
  if String.eqb k j then Some a else obj_get j o.
Proof.
  induction o as [|[k' a'] o IH]; simpl; intros Hk; [done|].
  destruct (String.eqb_spec k' k) as [->|Hne]; [done|].
  destruct (array_index k') as [n'|]; [destruct (n' <? n)%N|]; simpl;
    try done.
  rewrite IH by done. eqb_cases.
Qed.

Lemma obj_keys_insert_index n k a o :
  Object_keys (insert_index n k a o) ≡ₚ k :: Object_keys o.
Proof.
  induction o as [|[k' a'] o IH]; simpl; [done|].
  destruct (array_index k') as [n'|]; [destruct (n' <? n)%N|]; simpl;
    try done.
  rewrite IH. apply Permutation_swap.
Qed.

Lemma obj_get_app_new k a j o :
  obj_get k o = None ->
  obj_get j (o ++ [(k, a)]) = if String.eqb k j then Some a else obj_get j o.
Proof.
  induction o as [|[k' a'] o IH]; simpl; intros Hk; [done|].
  destruct (String.eqb_spec k' k) as [->|Hne]; [done|].
  rewrite IH by done. eqb_cases.
Qed.

(** Reading after a write. *)
Lemma obj_get_define k a j o :
  obj_get j (obj_define k a o) = if String.eqb k j then Some a else obj_get j o.
Proof.
  unfold obj_define. destruct (obj_get k o) as [a'|] eqn:Hk.
  - rewrite obj_get_replace, Hk. done.
  - destruct (array_index k).
    + by apply obj_get_insert_index.
    + by apply obj_get_app_new.
Qed.

Lemma obj_keys_define k a o :
  Object_keys (obj_define k a o) ≡ₚ
  match obj_get k o with
  | Some _ => Object_keys o
  | None => k :: Object_keys o
  end.
Proof.
  unfold obj_define. destruct (obj_get k o) as [a'|] eqn:Hk.
  - by rewrite obj_keys_replace.
  - destruct (array_index k).
    + apply obj_keys_insert_index.
    + unfold Object_keys. rewrite map_app. simpl.
      by rewrite Permutation_app_comm.
Qed.

(** A write keeps the keys unique. *)
Lemma obj_define_NoDup k a o :
  NoDup (Object_keys o) -> NoDup (Object_keys (obj_define k a o)).
Proof.
  intros Hnd. rewrite obj_keys_define.
  destruct (obj_get k o) eqn:Hk; [done|].
  apply NoDup_cons. split; [by apply obj_get_None | done].
Qed.

Lemma define_props_NoDup target src :
  NoDup (Object_keys target) -> NoDup (Object_keys (define_props target src)).
Proof.
  revert target. unfold define_props.
  induction src as [|[k a] src IH]; simpl; intros target Hnd; [done|].
  apply IH. by apply obj_define_NoDup.
Qed.

(** [Object.assign]: the source's properties win over the target's. *)
Lemma obj_get_define_props target src j :
  NoDup (Object_keys src) ->
  obj_get j (define_props target src) =
  match obj_get j src with
  | Some a => Some a
  | None => obj_get j target
  end.
Proof.
  revert target. unfold define_props.
  induction src as [|[k a] src IH]; simpl; intros target Hnd; [done|].
  apply NoDup_cons in Hnd as [Hk Hnd]. rewrite IH by done.
  rewrite obj_get_define. destruct (String.eqb_spec k j) as [->|Hne]; [|done].
  apply obj_get_None in Hk. by rewrite Hk.
Qed.
End ObjectFacts.

(** ** Runs *)

Lemma all_return_length {W A B} (f : A -> M W B) l s rs s' :
  all_return f l s rs s' -> length rs = length l.
Proof. induction 1; simpl; congruence. Qed.

(** A run is determined by where it starts. *)
Lemma all_return_inj {W A B} (f : A -> M W B) l s rs s' rs2 s2' :
  all_return f l s rs s' -> all_return f l s rs2 s2' -> rs = rs2 /\ s' = s2'.
Proof.
  intros H. revert rs2 s2'.
  induction H as [|x l s r s1 rs s2 Hx _ IH]; intros rs2 s2' H2.
  - by inversion H2.
  - inversion H2 as [|? ? ? r' s1' rs' ? Hx' Hl']; subst.
    rewrite Hx in Hx'. injection Hx' as <- <-.
    by destruct (IH _ _ Hl') as [<- <-].
Qed.

Lemma collect_NoDup result kvs :
  NoDup (Object_keys result) -> NoDup (Object_keys (collect result kvs)).
Proof.
  revert result. unfold collect.
  induction kvs as [|[k v] kvs IH]; simpl; intros result Hnd; [done|].
  apply IH. destruct (is_undefined v); [done | by apply obj_define_NoDup].
Qed.

Lemma obj_get_collect result kvs j :
  NoDup (Object_keys kvs) ->
  obj_get j (collect result kvs) =
  match obj_get j kvs with
  | Some v => if is_undefined v then obj_get j result else Some v
  | None => obj_get j result
  end.
Proof.
  revert result. unfold collect.
  induction kvs as [|[k v] kvs IH]; simpl; intros result Hnd; [done|].
  apply NoDup_cons in Hnd as [Hk Hnd]. rewrite IH by done.
  apply obj_get_None in Hk.
  destruct (String.eqb_spec k j) as [->|Hne].
  - rewrite Hk. destruct (is_undefined v); [done|].
    by rewrite obj_get_define, String.eqb_refl.
  - destruct (is_undefined v); [done|].
    rewrite obj_get_define. by apply String.eqb_neq in Hne as ->.
Qed.

Lemma zip_keys_NoDup {A B} (o : list (string * A)) (vs : list B) :
  NoDup (Object_keys o) -> NoDup (Object_keys (zip (Object_keys o) vs)).
Proof.
  revert vs. induction o as [|[k a] o IH]; intros [|v vs]; simpl;
    try (intros; apply NoDup_nil_2).
  intros [Hk Hnd]%NoDup_cons. apply NoDup_cons. split; [|by apply IH].
  intros Hin. apply Hk.
  unfold Object_keys in *.
  apply list_elem_of_fmap in Hin as ([k' b] & -> & Hin).
  apply elem_of_zip_l in Hin. done.
Qed.

Lemma keys_app {A} (o1 o2 : list (string * A)) :
  Object_keys (o1 ++ o2) = Object_keys o1 ++ Object_keys o2.
Proof. apply map_app. Qed.

(** ** Assignments *)

Section Assignments.
Context {host : Host}.
Implicit Types (p : value) (o : list (string * value)) (k : string).

(** An assignment the prototype chain does not intercept defines the
    property. *)
Lemma set_property_own k v p o :
  chain_set p k = SetOwn ->
  set_property k v (p, o) = Return (p, obj_define k v o).
Proof.
  intros Hk. unfold set_property. simpl.
  destruct (obj_get k o); [done|]. by rewrite Hk.
Qed.

Lemma collect_cons o k v kvs :
  collect o ((k, v) :: kvs) =
  collect (if is_undefined v then o else obj_define k v o) kvs.
Proof. reflexivity. Qed.

Lemma assign_plucked_own p o kvs :
  Forall (fun k => chain_set p k = SetOwn) (Object_keys kvs) ->
  assign_plucked (p, o) kvs = Return (p, collect o kvs).
Proof.
  revert o. induction kvs as [|[k v] kvs IH]; intros o Hk; [done|].
  apply Forall_cons in Hk as [Hk Hks]. rewrite collect_cons.
  change (assign_plucked (p, o) ((k, v) :: kvs)) with
    (match if is_undefined v then Return (p, o) else set_property k v (p, o)
     with
     | Return result' => assign_plucked result' kvs
     | Throw e => Throw e
     end).
  destruct (is_undefined v).
  - by apply IH.
  - rewrite set_property_own by done. by apply IH.
Qed.

Lemma assign_properties_own p o src :
  Forall (fun k => chain_set p k = SetOwn) (Object_keys src) ->
  assign_properties (p, o) src = Return (p, define_props o src).
Proof.
  revert o. induction src as [|[k v] src IH]; intros o Hk; [done|].
  apply Forall_cons in Hk as [Hk Hks]. simpl.
  rewrite set_property_own by done. by rewrite IH.
Qed.

Lemma assign_plucked_app result kvs1 kvs2 :
  assign_plucked result (kvs1 ++ kvs2) =
  match assign_plucked result kvs1 with
  | Return r => assign_plucked r kvs2
  | Throw e => Throw e
  end.
Proof.
  revert result. induction kvs1 as [|[k v] kvs1 IH]; intros result; [done|].
  simpl.
  destruct (if is_undefined v then Return result else set_property k v result);
    [apply IH | done].
Qed.
End Assignments.

(** ** The loop of [validate] *)

Section Loop.
Context {host : Host} {W : Type}.
Implicit Types (d : list (string * Field W)) (data : value) (s : W).

(** With unique keys, looking each key up again finds its own field. *)
Lemma pluck_keys_entries d d' data result s :
  (forall k f, (k, f) ∈ d' -> obj_get k d = Some f) ->
  pluck_keys d data (Object_keys d') result s = pluck_entries d' data result s.
Proof.
  revert result s.
  induction d' as [|[k f] d' IH]; simpl; intros result s Hd; [done|].
  rewrite (Hd k f) by (apply elem_of_cons; by left).
  unfold bind at 1 3. destruct (pluck f k data s) as [[v|e] s1]; [|done].
  unfold bind.
  destruct ((if is_undefined v then ret result
             else lift (set_property k v result)) s1) as [[r|e] s2]; [|done].
  apply IH. intros k' f' Hin. apply Hd. apply elem_of_cons. by right.
Qed.

Lemma pluck_keys_definition d data result s :
  NoDup (Object_keys d) ->
  pluck_keys d data (Object_keys d) result s = pluck_entries d data result s.
Proof.
  intros Hnd. apply pluck_keys_entries.
  intros k f Hin. by apply obj_get_elem_of.
Qed.

(** One turn of the loop, once the pluck has returned. *)
Lemma pluck_entries_step k f d data result s v s1 :
  pluck f k data s = (Return v, s1) ->
  pluck_entries ((k, f) :: d) data result s =
  match if is_undefined v then Return result else set_property k v result with
  | Return result' => pluck_entries d data result' s1
  | Throw e => (Throw e, s1)
  end.
Proof.
  intros Hx. simpl. unfold bind at 1. rewrite Hx. unfold bind.
  destruct (is_undefined v); [done|]. unfold lift.
  by destruct (set_property k v result).
Qed.

Lemma pluck_entries_returns d data result s vs s' r :
  all_return (fun kf => pluck kf.2 kf.1 data) d s vs s' ->
  assign_plucked result (zip (Object_keys d) vs) = Return r ->
  pluck_entries d data result s = (Return r, s').
Proof.
  intros Hd. revert result.
  induction Hd as [|[k f] d s v s1 vs s2 Hx _ IH]; intros result Hr.
  - by injection Hr as <-.
  - simpl in Hx, Hr. rewrite (pluck_entries_step _ _ _ _ _ _ _ _ Hx).
    destruct (if is_undefined v then Return result
              else set_property k v result); [by apply IH | done].
Qed.

Lemma pluck_entries_returned d data result s r s' :
  pluck_entries d data result s = (Return r, s') ->
  exists vs,
    all_return (fun kf => pluck kf.2 kf.1 data) d s vs s' /\
    assign_plucked result (zip (Object_keys d) vs) = Return r.
Proof.
  revert result s.
  induction d as [|[k f] d IH]; intros result s Hr.
  - injection Hr as <- <-. exists []. split; [constructor | done].
  - destruct (pluck f k data s) as [[v|e] s1] eqn:Hx.
    2: { simpl in Hr. unfold bind in Hr. by rewrite Hx in Hr. }
    rewrite (pluck_entries_step _ _ _ _ _ _ _ _ Hx) in Hr.
    destruct (if is_undefined v then Return result
              else set_property k v result) as [result'|e] eqn:Hset; [|done].
    apply IH in Hr as (vs & Hvs & Hassign).
    exists (v :: vs). split.
    + by eapply (all_return_cons _ (k, f)).
    + simpl. by rewrite Hset.
Qed.

Lemma pluck_entries_throws d1 k f d2 data result s vs s1 r e s2 :
  all_return (fun kf => pluck kf.2 kf.1 data) d1 s vs s1 ->
  assign_plucked result (zip (Object_keys d1) vs) = Return r ->
  pluck f k data s1 = (Throw e, s2) ->
  pluck_entries (d1 ++ (k, f) :: d2) data result s = (Throw e, s2).
Proof.
  intros Hd. revert result.
  induction Hd as [|[k' f'] d s v s1 vs s3 Hx _ IH]; intros result Hr He.
  - simpl. unfold bind. by rewrite He.
  - simpl in Hx, Hr. rewrite <- app_comm_cons.
    rewrite (pluck_entries_step _ _ _ _ _ _ _ _ Hx).
    destruct (if is_undefined v then Return result
              else set_property k' v result); [by apply IH | done].
Qed.

Lemma pluck_entries_app d1 d2 data result s :
  pluck_entries (d1 ++ d2) data result s =
  match pluck_entries d1 data result s with
  | (Return r1, s1) => pluck_entries d2 data r1 s1
  | (Throw e, s1) => (Throw e, s1)
  end.
Proof.
  revert result s. induction d1 as [|[k f] d1 IH]; intros result s; [done|].
  simpl. unfold bind at 1 3. destruct (pluck f k data s) as [[v|e] s1]; [|done].
  unfold bind.
  destruct ((if is_undefined v then ret result
             else lift (set_property k v result)) s1) as [[r|e] s2]; [|done].
  apply IH.
Qed.

(** The loop of a prefix that plucks runs through. *)
Lemma plucked_prefix_throws d1 k f d2 data s vs s1 e s2 :
  plucked data d1 s vs s1 ->
  pluck f k data s1 = (Throw e, s2) ->
  pluck_entries (d1 ++ (k, f) :: d2) data (Object_prototype, []) s =
  (Throw e, s2).
Proof.
  intros [Hd [r Hr]] He. by eapply pluck_entries_throws.
Qed.
End Loop.

(** ** The expectations of the test suite *)

Example snake_converts_camel_to_snake :
  map snake ["helloWorld"; "hello_world"; "ALOT"; "helloWorld123";
             "hello world"] =
  ["hello_world"; "hello_world"; "a_l_o_t"; "hello_world_123"; "hello world"].
Proof. reflexivity. Qed.

Example model_returns_parsed_values :
  validate (example_model None)
    (VObject [("a_key", VString "1"); ("b", VString "2");
              ("d", VObject [("e", VNumber 2)])]) tt =
  (Return (VObject [("aKey", VString "1");
                    ("c", VObject [("e", VNumber 3)]);
                    ("b", VString "2")]), tt).
Proof. reflexivity. Qed.

Example model_throws_specific_error :
  message_of (validate (example_model (Some "MyClass"))
                (VObject [("a_key", VString "1");
                          ("d", VObject [("e", VString "2")])]) tt) =
  Some "MyClass expected an object with attribute 'd', that is an object with attribute 'e', that is a number.".
Proof. reflexivity. Qed.

Example model_throws_when_passed_a_string :
  message_of (validate (example_model None) (VString "") tt) =
  Some "Expected an object.".
Proof. reflexivity. Qed.

Example arrayOf_throws_on_first_invalid :
  message_of (arrayOf validators.number
                (VArray [VNumber 1; VString "error"; VNumber 3;
                         VString "error"]) tt) =
  Some "Expected an array with value at [1], that is a number.".
Proof. reflexivity. Qed.

Example blankable_collapses_null :
  blankable validators.string VNull tt = (Return VUndefined, tt) /\
  message_of (blankable validators.string (VNumber 1) tt) =
  Some "Expected null, undefined, or a string.".
Proof. split; reflexivity. Qed.

Example union_with_neither_type :
  message_of (union (validate ModelA) (validate ModelB)
                (VObject [("a", VNumber 1234); ("b", VString "asdf")]) tt) =
  Some "Expected ModelA, that is an object with attribute 'a', that is a string; or ModelB, that is an object with attribute 'b', that is a number.".
Proof. reflexivity. Qed.

Example intersect_with_both_types :
  intersect (validate ModelA) (validate ModelB)
    (VObject [("a", VString "asdf"); ("b", VNumber 1234)]) tt =
  (Return (VObject [("a", VString "asdf"); ("b", VNumber 1234)]), tt).
Proof. reflexivity. Qed.

(** Array-index keys are enumerated first, in ascending order. *)
Example obj_define_key_order :
  Object_keys
    (obj_define "1" 5 (obj_define "b" 1 (obj_define "10" 2 (obj_define "2" 3
       (obj_define "a" 4 (obj_define "01" 7 [])))))) =
  ["1"; "2"; "10"; "01"; "a"; "b"].
Proof. reflexivity. Qed.


(** The first character is lowered as [toLowerCase] does, beyond [A-Z];
    the pattern of the replacement knows [A-Z] only. *)
Example snake_lowers_first_beyond_ascii :
  snake (String "201"%char "aB") = String "233"%char "a_b" /\
  snake (String "a"%char (String "201"%char "B"))
    = String "a"%char (String "201"%char "_b").
Proof. split; reflexivity. Qed.

(** Keys that [Object.prototype] answers for: an inherited member is read,
    and an assignment to [__proto__] sets the prototype of the result when
    the value is an object and is ignored otherwise. *)
Example inherited_keys :
  get_property (VObject []) "constructor" tt = (Return (VHost "Object"), tt) /\
  get_property (VObject []) "__proto__" tt = (Return Object_prototype, tt) /\
  get_property (VObject [("__proto__", VNumber 1)]) "__proto__" tt =
    (Return (VNumber 1), tt) /\
  validate (model None [("__proto__", field (validate ModelA))])
    (VObject [("__proto__", VObject [("a", VString "x")])]) tt =
    (Return (VObjectWith (VObject [("a", VString "x")]) []), tt) /\
  validate (model None [("__proto__", field validators.number)])
    (VObject [("__proto__", VNumber 1)]) tt =
    (Return (VObject []), tt).
Proof. repeat split; reflexivity. Qed.

(** On the host of the examples, [__proto__] is the one key whose
    assignment to a new object its prototype chain intercepts, and the
    members of [Object.prototype] are the keys a plain object inherits. *)
Example ecma_host_keys (key : string) :
  (host_set "Object.prototype" key = SetOwn <-> key <> "__proto__") /\
  (host_member "Object.prototype" key = NoMember <->
   key <> "__proto__" /\ key ∉ Object_prototype_members).
Proof.
  simpl. destruct (String.eqb_spec key "__proto__") as [->|Hne].
  - split; split; try done. by intros [? _].
  - split; [done|].
    destruct (String.eqb_spec key "constructor") as [->|Hc].
    + split; [done|]. intros [_ Hn]. exfalso. apply Hn.
      by apply (bool_decide_unpack _).
    + destruct (decide (key ∈ Object_prototype_members)) as [Hin|Hnin].
      * rewrite bool_decide_eq_true_2 by done. split; [done|]. by intros [_ ?].
      * by rewrite bool_decide_eq_false_2 by done.
Qed.

(** A definition with an own key [__proto__], extended: the field under
    that key becomes the prototype of the new definition, the one of the
    extension replacing the one of the base; the other keys are defined on
    the new object, those that name a property of the field included. *)
Example extend_with_proto_keys :
  let db : Store.DefinitionObject unit :=
    {| Store.prototype := None;
       Store.properties := [("__proto__", field validators.string);
                            ("validator", field validators.string)] |} in
  let de : Store.DefinitionObject unit :=
    {| Store.prototype := None;
       Store.properties := [("__proto__", multiField validators.number);
                            ("q", field validators.boolean)] |} in
  let h : gmap positive (Store.DefinitionObject unit) :=
    <[1%positive := db]> (<[2%positive := de]> ∅) in
  Store.extend {| Store.name := None; Store.definition := 1%positive |}
    None (Store.ExtDefinition 2%positive) h =
  (Return {| Store.name := None; Store.definition := 3%positive |},
   <[3%positive :=
       {| Store.prototype := Some (multiField validators.number);
          Store.properties := [("validator", field validators.string);
                               ("q", field validators.boolean)] |}]> h).
Proof. reflexivity. Qed.
(** ** Validator combinators *)

Lemma append_assoc (s1 s2 s3 : string) :
  (s1 +:+ s2) +:+ s3 = s1 +:+ s2 +:+ s3.
Proof.
  induction s1 as [|c s1 IH]; [done|].
  change (String c ((s1 +:+ s2) +:+ s3) = String c (s1 +:+ s2 +:+ s3)).
  by f_equal.
Qed.

Section ValidatorFacts.
Context {host : Host} {W : Type}.
Implicit Types (v a b : Validator W) (s : W) (x data : value) (e : thrown).

Lemma wrapError_returns v p x s r s' :
  v x s = (Return r, s') -> wrapError v p x s = (Return r, s').
Proof. intros H. unfold wrapError, try_catch. by rewrite H. Qed.

Lemma wrapError_throws v p x s e s' :
  v x s = (Throw e, s') ->
  wrapError v p x s =
  (Throw match assertion e with
         | Some m => ValidationError (p +:+ " " +:+ m)
         | None => e
         end, s').
Proof. intros H. unfold wrapError, try_catch. rewrite H. by destruct e. Qed.

Lemma Array_map_returns v l index s rs s' :
  all_return v l s rs s' ->
  Array_map (arrayOf_callback v) l index s = (Return rs, s').
Proof.
  intros H. revert index.
  induction H as [|x l s r s1 rs s2 Hx _ IH]; intros index; [done|].
  simpl. unfold bind at 1. unfold arrayOf_callback at 1.
  rewrite (wrapError_returns _ _ _ _ _ _ Hx).
  unfold bind. by rewrite IH.
Qed.

Lemma Array_map_throws v l1 x l2 index s rs s1 e s2 :
  all_return v l1 s rs s1 ->
  v x s1 = (Throw e, s2) ->
  Array_map (arrayOf_callback v) (l1 ++ x :: l2) index s =
  (Throw match assertion e with
         | Some m =>
             ValidationError
               (("an array with value at [" +:+ pretty (index + length l1)
                   +:+ "], that is") +:+ " " +:+ m)
         | None => e
         end, s2).
Proof.
  intros H. revert index.
  induction H as [|y l s r s1 rs s3 Hy _ IH]; intros index He; simpl.
  - unfold bind, arrayOf_callback.
    rewrite (wrapError_throws _ _ _ _ _ _ He). by rewrite Nat.add_0_r.
  - unfold bind at 1. unfold arrayOf_callback at 1.
    rewrite (wrapError_returns _ _ _ _ _ _ Hy).
    unfold bind. rewrite IH by done.
    by replace (S index + length l) with (index + S (length l)) by lia.
Qed.

Lemma union_returns_left a b data s r s1 :
  a data s = (Return r, s1) -> union a b data s = (Return r, s1).
Proof. intros Ha. unfold union, bind, try_return. by rewrite Ha. Qed.

Lemma union_throws_left a b data s e s1 :
  a data s = (Throw e, s1) ->
  union a b data s =
  match e with
  | OtherError _ => (Throw e, s1)
  | _ =>
      match b data s1 with
      | (Return r, s2) => (Return r, s2)
      | (Throw (OtherError y), s2) => (Throw (OtherError y), s2)
      | (Throw eb, s2) =>
          (Throw (ValidationError
                    (match e with
                     | Named n m => n +:+ ", that is " +:+ m
                     | ValidationError m => m
                     | OtherError _ => ""
                     end +:+ "; or " +:+
                     match eb with
                     | Named n m => n +:+ ", that is " +:+ m
                     | ValidationError m => m
                     | OtherError _ => ""
                     end)), s2)
      end
  end.
Proof.
  intros Ha. unfold union, bind, try_return. rewrite Ha.
  destruct e; simpl; try done;
    destruct (b data s1) as [[r|[]] s2]; done.
Qed.
End ValidatorFacts.

(** ** Names of nested models *)

Section NameFacts.
Context {host : Host} {W : Type}.
Implicit Types (v : Validator W) (d : list (string * Field W)) (s : W).

(** A named model is its unnamed twin with the error rewrapped. *)
Lemma validate_named_unnamed n d data s :
  validate (model (Some n) d) data s =
  match validate (model None d) data s with
  | (Return r, s') => (Return r, s')
  | (Throw e, s') =>
      (Throw match e with
             | ValidationError m | Named _ m => Named n m
             | OtherError _ => e
             end, s')
  end.
Proof.
  unfold validate, try_catch. simpl.
  match goal with |- context [?c s] => destruct (c s) as [[r|e] s'] end;
    [done|].
  by destruct e.
Qed.


End NameFacts.

(** ** Models *)

Section ModelFacts.
Context {host : Host} {W : Type}.
Implicit Types (d : list (string * Field W)) (data : value) (s : W).

(** [validate] on an object-typed input: the loop, then the handler. *)
Lemma validate_object nm d data s :
  typeof data = "object" ->
  NoDup (Object_keys d) ->
  validate (model nm d) data s =
  match pluck_entries d data (Object_prototype, []) s with
  | (Return r, s') => (Return (VObjectWith r.1 r.2), s')
  | (Throw e, s') =>
      (Throw match e, nm with
             | (ValidationError m | Named _ m), Some n => Named n m
             | _, _ => e
             end, s')
  end.
Proof.
  intros Hty Hnd. unfold validate, try_catch, bind. simpl.
  rewrite Hty. simpl. rewrite pluck_keys_definition by done.
  destruct (pluck_entries d data (Object_prototype, []) s) as [[r|e] s'];
    [done|].
  by destruct e, nm.
Qed.

Lemma validate_not_object nm d data s :
  typeof data <> "object" ->
  validate (model nm d) data s =
  (Throw match nm with
         | Some n => Named n "an object"
         | None => ValidationError "an object"
         end, s).
Proof.
  intros Hty. unfold validate, try_catch. simpl.
  apply String.eqb_neq in Hty as ->. simpl. by destruct nm.
Qed.

(** What a named model throws carries its name, or is no validation
    error at all. *)
Lemma validate_named_throws n d data s e s' :
  validate (model (Some n) d) data s = (Throw e, s') ->
  (exists m, e = Named n m) \/ (exists x, e = OtherError x).
Proof.
  unfold validate, try_catch. simpl.
  match goal with |- context [?c s] => destruct (c s) as [[r|e0] s0] end;
    [done|].
  destruct e0; unfold throw; intros [= <- <-]; eauto.
Qed.

(** The loop on keys that no prototype intercepts builds a plain object. *)
Lemma validate_returns_own nm d data s vs s' :
  typeof data = "object" ->
  NoDup (Object_keys d) ->
  Forall (fun k => host_set "Object.prototype" k = SetOwn) (Object_keys d) ->
  all_return (fun kf => pluck kf.2 kf.1 data) d s vs s' ->
  validate (model nm d) data s =
  (Return (VObject (collect [] (zip (Object_keys d) vs))), s').
Proof.
  intros Hty Hnd Hown Hvs. rewrite validate_object by done.
  assert (Hassign :
            assign_plucked (Object_prototype, []) (zip (Object_keys d) vs) =
            Return (Object_prototype, collect [] (zip (Object_keys d) vs))).
  { apply assign_plucked_own.
    apply Forall_forall. intros k Hk. simpl.
    apply (proj1 (Forall_forall _ _) Hown).
    unfold Object_keys in Hk.
    apply list_elem_of_fmap in Hk as ([k' v'] & -> & Hin).
    by apply elem_of_zip_l in Hin. }
  by rewrite (pluck_entries_returns _ _ _ _ _ _ _ Hvs Hassign).
Qed.
End ModelFacts.

(** ** Definition objects in the store *)

Section StoreFacts.
Context {host : Host} {W : Type}.
Implicit Types (h : gmap positive (Store.DefinitionObject W)).
Implicit Types (t : Store.DefinitionObject W) (src : list (string * Field W)).

Lemma definition_set_own key f t :
  Store.prototype t = None ->
  host_set "Object.prototype" key = SetOwn ->
  Store.definition_set key f t =
  Return {| Store.prototype := None;
            Store.properties := obj_define key f (Store.properties t) |}.
Proof.
  intros Hp Hk. unfold Store.definition_set. rewrite Hp, Hk.
  by destruct (obj_get key (Store.properties t)).
Qed.

Lemma assign_definition_own t src :
  Store.prototype t = None ->
  Forall (fun k => host_set "Object.prototype" k = SetOwn) (Object_keys src) ->
  Store.assign_definition t src =
  (Return tt,
   {| Store.prototype := None;
      Store.properties := define_props (Store.properties t) src |}).
Proof.
  revert t. induction src as [|[k f] src IH]; intros t Hp Hk.
  - simpl. destruct t as [p o]. simpl in Hp. by subst p.
  - apply Forall_cons in Hk as [Hk Hks]. simpl.
    rewrite definition_set_own by done. by rewrite IH.
Qed.

(** [Object.assign] writes to its target only. *)
Lemma Object_assign_frame target sources h l :
  l <> target ->
  (Store.Object_assign target sources h).2 !! l = h !! l.
Proof.
  intros Hl. revert h. induction sources as [|source sources IH]; intros h.
  - done.
  - simpl. destruct (h !! source) as [src|]; [|done].
    destruct (h !! target) as [t|]; [|done].
    destruct (Store.assign_definition t (Store.properties src))
      as [[[]|e] t'].
    + rewrite IH. by rewrite lookup_insert_ne.
    + simpl. by rewrite lookup_insert_ne.
Qed.

(** [extend] writes to the object it creates only. *)
Lemma extend_frame this name extension h l :
  l ∈ dom h ->
  (Store.extend this name extension h).2 !! l = h !! l.
Proof.
  intros Hl. unfold Store.extend.
  set (target := fresh (dom h)).
  assert (Hne : l <> target).
  { intros ->. by apply (is_fresh (dom h)). }
  pose proof (Object_assign_frame target
                [Store.definition this; Store.extension_definition extension]
                (<[target:={| Store.prototype := None;
                              Store.properties := [] |}]> h) l Hne) as Hf.
  destruct (Store.Object_assign target _ _) as [[[]|e] h']; simpl in *;
    rewrite Hf; by rewrite lookup_insert_ne.
Qed.

(** What [extend] returns and the store it leaves, when every key is
    defined on the new object. *)
Lemma extend_closed h base name ext db de :
  h !! Store.definition base = Some db ->
  h !! Store.extension_definition ext = Some de ->
  Forall (fun k => host_set "Object.prototype" k = SetOwn)
    (Object_keys (Store.properties db) ++ Object_keys (Store.properties de)) ->
  Store.extend base name ext h =
  (Return {| Store.name := name; Store.definition := fresh (dom h) |},
   <[fresh (dom h) :=
       {| Store.prototype := None;
          Store.properties :=
            define_props (define_props [] (Store.properties db))
              (Store.properties de) |}]> h).
Proof.
  intros Hb He Hown. apply Forall_app in Hown as [Hownb Howne].
  unfold Store.extend, Store.Object_assign.
  set (target := fresh (dom h)).
  assert (Hfresh : target ∉ dom h) by apply is_fresh.
  assert (Hnb : target <> Store.definition base).
  { intros Heq. apply Hfresh. rewrite Heq. by apply elem_of_dom_2 in Hb. }
  assert (Hne : target <> Store.extension_definition ext).
  { intros Heq. apply Hfresh. rewrite Heq. by apply elem_of_dom_2 in He. }
  rewrite (lookup_insert_ne _ _ _ _ Hnb), Hb, lookup_insert_eq.
  rewrite assign_definition_own by done.
  rewrite !(lookup_insert_ne _ _ _ _ Hne), He, lookup_insert_eq.
  rewrite assign_definition_own by done.
  by rewrite !insert_insert_eq.
Qed.

(** [extension instanceof Model ? extension.definition : extension], read
    from the store. *)
Lemma extension_lookup h ext :
  h !! Store.extension_definition ext =
  match ext with
  | Store.ExtModel m => h !! Store.definition m
  | Store.ExtDefinition l => h !! l
  end.
Proof. by destruct ext. Qed.
End StoreFacts.

(** C1, as stated, fails: [null] and arrays are not plain objects, yet their
    [typeof] is ["object"], so a model does not reject them with
    ["an object"].  On an array the fields are plucked as from any object; on
    [null] the first property read throws a [TypeError]. *)
Lemma validate_null_array_counterexample :
  let this := model None [("a", field (optional validators.string))] in
  validate this (VArray []) tt = (Return (VObject []), tt) /\
  validate this VNull tt = (Throw (OtherError "TypeError"), tt) /\
  ~ (forall (m : Model unit) (raw : value),
       (forall o, raw <> VObject o) ->
       exists e, (validate m raw tt).1 = Throw e /\
                 assertion e = Some "an object").
Proof.
  repeat split; try reflexivity.
  intros H.
  destruct (H (model None []) (VArray [])) as (e & He & _); [done|].
  discriminate He.
Qed.

(** C1, amended.  An input whose [typeof] is not ["object"] ([undefined], a
    boolean, a number, a string or a function of the host) makes a model,
    named or not, fail with assertion ["an object"]; the world is left as it
    was, so no field has been plucked.  [null] and arrays have [typeof]
    ["object"]. *)
Theorem validate_rejects_non_object_typeof
    {host : Host} {W} (this : Model W) (raw : value) (s : W) :
  typeof raw <> "object" ->
  (raw = VUndefined \/ (exists b, raw = VBoolean b) \/
   (exists n, raw = VNumber n) \/ (exists x, raw = VString x) \/
   (exists id, raw = VHost id)) /\
  validate this raw s =
    (Throw match name this with
           | Some n => Named n "an object"
           | None => ValidationError "an object"
           end, s) /\
  exists e, (validate this raw s).1 = Throw e /\
            instanceof_ValidationError e = true /\
            assertion e = Some "an object".
Proof.
  intros Hty. destruct this as [nm d].
  pose proof (validate_not_object nm d raw s Hty) as Hv.
  split; [|split].
  - destruct raw; simpl in Hty; try done; eauto 8.
  - exact Hv.
  - fold (model nm d). rewrite Hv. simpl. destruct nm; eauto.
Qed.

Lemma validate_rejects_non_object_typeof_witness :
  validate (example_model (Some "MyClass")) (VString "") tt =
    (Throw (Named "MyClass" "an object"), tt) /\
  validate (example_model None) VUndefined tt =
    (Throw (ValidationError "an object"), tt).
Proof.
  split.
  - apply (validate_rejects_non_object_typeof
             (example_model (Some "MyClass")) (VString "") tt).
    simpl. discriminate.
  - apply (validate_rejects_non_object_typeof
             (example_model None) VUndefined tt).
    simpl. discriminate.
Defined.

(** C3.  A named model rewraps every validation-kind error raised while it
    validates, by the non-object check or by the pluck of a field, into a
    named error that renders ["<name> expected <assertion>."]; an unnamed
    model lets the error through as it is; an error of any other kind comes
    out unchanged of both. *)
Theorem validate_rewraps_by_name
    {host : Host} {W} (d : list (string * Field W)) (data : value) (s : W) :
  (forall n, typeof data <> "object" ->
     validate (model (Some n) d) data s = (Throw (Named n "an object"), s)) /\
  (typeof data <> "object" ->
     validate (model None d) data s =
       (Throw (ValidationError "an object"), s)) /\
  (forall d1 k f d2 vs s1 e s2,
     typeof data = "object" ->
     NoDup (Object_keys d) ->
     d = d1 ++ (k, f) :: d2 ->
     plucked data d1 s vs s1 ->
     pluck f k data s1 = (Throw e, s2) ->
     (forall n m, assertion e = Some m ->
        validate (model (Some n) d) data s = (Throw (Named n m), s2)) /\
     validate (model None d) data s = (Throw e, s2) /\
     (forall nm, assertion e = None ->
        validate (model nm d) data s = (Throw e, s2))) /\
  (forall n e s', validate (model (Some n) d) data s = (Throw e, s') ->
     (exists m, e = Named n m) \/ (exists x, e = OtherError x)) /\
  (forall n m, message (Named n m) = n +:+ " expected " +:+ m +:+ ".").
Proof.
  split; [|split; [|split; [|split]]].
  - intros n Hty. by rewrite validate_not_object.
  - intros Hty. by rewrite validate_not_object.
  - intros d1 k f d2 vs s1 e s2 Hty Hnd -> Hvs He.
    pose proof (plucked_prefix_throws d1 k f d2 data s vs s1 e s2 Hvs He)
      as Hloop.
    split; [|split].
    + intros n m Hm. rewrite validate_object, Hloop by done.
      destruct e; simpl in Hm; by simplify_eq.
    + rewrite validate_object, Hloop by done. by destruct e.
    + intros nm Hm. rewrite validate_object, Hloop by done.
      destruct e; simpl in Hm; by simplify_eq.
  - intros n e s'. apply validate_named_throws.
  - reflexivity.
Qed.

Lemma validate_rewraps_by_name_witness :
  let d := definition (example_model None) in
  validate (model (Some "MyClass") d) (VString "") tt =
    (Throw (Named "MyClass" "an object"), tt) /\
  validate (model (Some "MyClass") d)
    (VObject [("a_key", VString "1"); ("d", VString "2")]) tt =
    (Throw (Named "MyClass"
              "an object with attribute 'd', that is an object"), tt) /\
  validate (model None d)
    (VObject [("a_key", VString "1"); ("d", VString "2")]) tt =
    (Throw (ValidationError
              "an object with attribute 'd', that is an object"), tt).
Proof.
  intros d.
  pose proof (validate_rewraps_by_name d (VString "") tt) as (H1 & _).
  pose proof (validate_rewraps_by_name d
                (VObject [("a_key", VString "1"); ("d", VString "2")]) tt)
    as (_ & _ & H3 & _).
  split; [|split].
  - apply H1. simpl. discriminate.
  - refine (proj1 (H3 [("aKey", fieldFromSnake validators.string)] "c" _
                     [("b", field (blankable validators.string))]
                     [VString "1"] tt _ tt eq_refl _ eq_refl _ eq_refl)
              "MyClass" _ eq_refl).
    + by apply (bool_decide_unpack _).
    + split; [|eexists; reflexivity].
      eapply all_return_cons; [reflexivity | constructor].
  - refine (proj1 (proj2 (H3 [("aKey", fieldFromSnake validators.string)] "c" _
                     [("b", field (blankable validators.string))]
                     [VString "1"] tt _ tt eq_refl _ eq_refl _ eq_refl))).
    + by apply (bool_decide_unpack _).
    + split; [|eexists; reflexivity].
      eapply all_return_cons; [reflexivity | constructor].
Defined.

(** C6, as stated, fails at the definition key [__proto__]: assigning the
    plucked value to that key of the result goes to the setter of
    [Object.prototype] and creates no property, so the result lacks a
    definition key whose plucked value is not [undefined]. *)
Lemma validate_proto_key_counterexample :
  let this : Model unit :=
    model None [("__proto__", field validators.string);
                ("q", field validators.string)] in
  let data := VObject [("__proto__", VString "x"); ("q", VString "y")] in
  validate this data tt = (Return (VObject [("q", VString "y")]), tt) /\
  ~ (forall (m : Model unit) (input r : value),
       NoDup (Object_keys (definition m)) ->
       validate m input tt = (Return r, tt) ->
       exists vs o,
         all_return (fun kf => pluck kf.2 kf.1 input) (definition m) tt vs tt /\
         r = VObject o /\
         holds_plucked (Object_keys (definition m)) vs o).
Proof.
  intros this data. split; [reflexivity|].
  intros H.
  destruct (H this data (VObject [("q", VString "y")]))
    as (vs & o & Hvs & Ho & _ & Hget).
  - by apply (bool_decide_unpack _).
  - reflexivity.
  - assert (Hrun : all_return (fun kf : string * Field unit =>
                                 pluck kf.2 kf.1 data)
                     (definition this) tt [VString "x"; VString "y"] tt).
    { repeat (eapply all_return_cons; [reflexivity|]). constructor. }
    destruct (all_return_inj _ _ _ _ _ _ _ Hvs Hrun) as [-> _].
    injection Ho as <-. specialize (Hget "__proto__"). discriminate Hget.
Qed.

(** C6, amended.  For a model whose definition has no key that the
    prototype chain of a new object intercepts on assignment, as it does
    [__proto__]: the object it returns holds exactly the definition keys
    whose plucked value is not [undefined], each bound to that value; a key
    whose plucked value is [undefined] is absent, not bound to [undefined],
    and no other key is present.  Such a model returns exactly when its
    input is object-typed and every pluck returns. *)
Theorem validate_result_keys
    {host : Host} {W} (this : Model W) (data : value) (s : W) :
  NoDup (Object_keys (definition this)) ->
  Forall (fun k => host_set "Object.prototype" k = SetOwn)
    (Object_keys (definition this)) ->
  (forall r s',
     validate this data s = (Return r, s') ->
     exists vs o,
       typeof data = "object" /\
       plucked data (definition this) s vs s' /\
       r = VObject o /\
       holds_plucked (Object_keys (definition this)) vs o) /\
  (forall vs s',
     typeof data = "object" ->
     all_return (fun kf => pluck kf.2 kf.1 data) (definition this) s vs s' ->
     exists o,
       validate this data s = (Return (VObject o), s') /\
       holds_plucked (Object_keys (definition this)) vs o) /\
  (forall vs o,
     holds_plucked (Object_keys (definition this)) vs o ->
     (forall k, obj_get k o <> Some VUndefined) /\
     (forall k, k ∈ Object_keys o -> k ∈ Object_keys (definition this))).
Proof.
  destruct this as [nm d]. simpl. intros Hnd Hown.
  assert (Hcollect : forall vs,
            holds_plucked (Object_keys d) vs
              (collect [] (zip (Object_keys d) vs))).
  { intros vs. split; [apply collect_NoDup, NoDup_nil_2|].
    intros k. by rewrite obj_get_collect by by apply zip_keys_NoDup. }
  fold (model nm d). split; [|split].
  - intros r s' Hv.
    destruct (decide (typeof data = "object")) as [Hty|Hty].
    2: { rewrite validate_not_object in Hv by done. discriminate Hv. }
    pose proof Hv as Hloop. rewrite validate_object in Hloop by done.
    destruct (pluck_entries d data (Object_prototype, []) s)
      as [[o|e] s1] eqn:Hrun; [|done].
    apply pluck_entries_returned in Hrun as (vs & Hvs & Hassign).
    rewrite (validate_returns_own nm d data s vs s1 Hty Hnd Hown Hvs) in Hv.
    injection Hv as <- <-.
    exists vs, (collect [] (zip (Object_keys d) vs)).
    repeat split; try done. by exists o. apply Hcollect. apply Hcollect.
  - intros vs s' Hty Hvs.
    exists (collect [] (zip (Object_keys d) vs)). split; [|done].
    by apply validate_returns_own.
  - intros vs o [_ Hget]. split.
    + intros k. rewrite Hget.
      destruct (obj_get k (zip (Object_keys d) vs)) as [[]|]; done.
    + intros k Hk.
      destruct (obj_get k o) eqn:Hko; [|by apply obj_get_None in Hko].
      rewrite Hget in Hko.
      destruct (obj_get k (zip (Object_keys d) vs)) eqn:Hkz; [|done].
      assert (k ∈ Object_keys (zip (Object_keys d) vs)) as Hin.
      { destruct (decide (k ∈ Object_keys (zip (Object_keys d) vs)))
          as [|Hnot]; [done|].
        apply obj_get_None in Hnot. congruence. }
      unfold Object_keys in Hin at 1.
      apply list_elem_of_fmap in Hin as ([k' v'] & -> & Hin).
      by apply elem_of_zip_l in Hin.
Qed.

Lemma validate_result_keys_witness :
  exists o,
    validate (example_model None)
      (VObject [("a_key", VString "1"); ("b", VNull);
                ("d", VObject [("e", VNumber 2)])]) tt =
      (Return (VObject o), tt) /\
    obj_get "aKey" o = Some (VString "1") /\
    obj_get "b" o = None.
Proof.
  destruct (validate_result_keys (example_model None)
              (VObject [("a_key", VString "1"); ("b", VNull);
                        ("d", VObject [("e", VNumber 2)])]) tt)
    as (Hret & _ & _).
  - by apply (bool_decide_unpack _).
  - repeat (apply Forall_cons; split; [reflexivity|]). apply Forall_nil_2.
  - destruct (Hret (VObject [("aKey", VString "1");
                             ("c", VObject [("e", VNumber 3)])]) tt eq_refl)
      as (vs & o & _ & _ & Ho & _).
    injection Ho as <-.
    eexists. split; [reflexivity|]. split; reflexivity.
Defined.




(** C4.  [union(a, b)]: an error of [a] that is no validation error comes out
    at once, [b] not called; when [a] fails validation and [b] throws an
    error of another kind, that error comes out; [union] fails validation
    only when both do, and then with ["<messageA>; or <messageB>"], where a
    named error contributes ["<name>, that is <assertion>"] and a plain one
    its assertion. *)
Theorem union_failures {W} (a b : Validator W) (data : value) (s : W) :
  (forall x s1, a data s = (Throw (OtherError x), s1) ->
     union a b data s = (Throw (OtherError x), s1)) /\
  (forall ea s1 x s2,
     a data s = (Throw ea, s1) -> instanceof_ValidationError ea = true ->
     b data s1 = (Throw (OtherError x), s2) ->
     union a b data s = (Throw (OtherError x), s2)) /\
  (forall ea s1 eb s2 messageA messageB,
     a data s = (Throw ea, s1) -> b data s1 = (Throw eb, s2) ->
     validationMessageOf ea s1 = (Return messageA, s1) ->
     validationMessageOf eb s2 = (Return messageB, s2) ->
     union a b data s =
       (Throw (ValidationError (messageA +:+ "; or " +:+ messageB)), s2)) /\
  (forall e s', union a b data s = (Throw e, s') ->
     instanceof_ValidationError e = true ->
     exists ea s1 eb,
       a data s = (Throw ea, s1) /\ b data s1 = (Throw eb, s') /\
       instanceof_ValidationError ea = true /\
       instanceof_ValidationError eb = true) /\
  (forall n m (s0 : W),
     validationMessageOf (Named n m) s0 =
       (Return (n +:+ ", that is " +:+ m), s0) /\
     validationMessageOf (ValidationError m) s0 = (Return m, s0)).
Proof.
  split; [|split; [|split; [|split]]].
  - intros x s1 Ha. by rewrite (union_throws_left _ _ _ _ _ _ Ha).
  - intros ea s1 x s2 Ha Hea Hb.
    rewrite (union_throws_left _ _ _ _ _ _ Ha), Hb. by destruct ea.
  - intros ea s1 eb s2 messageA messageB Ha Hb HmA HmB.
    rewrite (union_throws_left _ _ _ _ _ _ Ha), Hb.
    destruct ea, eb; simpl in *; unfold ret, throw in *; by simplify_eq.
  - intros e s' Hu He.
    destruct (a data s) as [[ra|ea] s1] eqn:Ha.
    + rewrite (union_returns_left _ _ _ _ _ _ Ha) in Hu. discriminate Hu.
    + rewrite (union_throws_left _ _ _ _ _ _ Ha) in Hu.
      destruct ea; try (by simplify_eq);
        destruct (b data s1) as [[rb|eb] s2] eqn:Hb; try discriminate Hu;
        destruct eb; simplify_eq; try discriminate He;
        by eexists _, _, _.
  - intros n m s0. split; reflexivity.
Qed.

Lemma union_failures_witness :
  union (fun _ => throw (OtherError "Test error")) (validate ModelA)
    (VObject [("a", VString "asdf")]) tt =
    (Throw (OtherError "Test error"), tt) /\
  union (validate ModelA) (fun _ => throw (OtherError "Test error"))
    (VNumber 1234) tt =
    (Throw (OtherError "Test error"), tt) /\
  union (validate ModelA) (validate ModelB)
    (VObject [("a", VNumber 1234); ("b", VString "asdf")]) tt =
    (Throw (ValidationError
              "ModelA, that is an object with attribute 'a', that is a string; or ModelB, that is an object with attribute 'b', that is a number"),
     tt).
Proof.
  split; [|split].
  - apply (proj1 (union_failures
             (fun _ => throw (OtherError "Test error")) (validate ModelA)
             (VObject [("a", VString "asdf")]) tt)).
    reflexivity.
  - apply (proj1 (proj2 (union_failures
             (validate ModelA) (fun _ => throw (OtherError "Test error"))
             (VNumber 1234) tt))
             (Named "ModelA" "an object") tt); reflexivity.
  - apply (proj1 (proj2 (proj2 (union_failures
             (validate ModelA) (validate ModelB)
             (VObject [("a", VNumber 1234); ("b", VString "asdf")]) tt)))
             (Named "ModelA"
                "an object with attribute 'a', that is a string") tt
             (Named "ModelB"
                "an object with attribute 'b', that is a number") tt
             "ModelA, that is an object with attribute 'a', that is a string"
             "ModelB, that is an object with attribute 'b', that is a number");
      reflexivity.
Defined.

(** C8.  [union(a, b)] is left-biased: where [a] returns, [union(a, b)]
    returns what [a] returns and leaves the world [a] leaves, whatever [b]
    is; so when both would accept an input the result is that of [a]. *)
Theorem union_left_biased
    {W} (a b : Validator W) (data : value) (s : W) (r : value) (s1 : W) :
  a data s = (Return r, s1) ->
  union a b data s = (Return r, s1) /\
  (forall b' : Validator W, union a b' data s = union a b data s).
Proof.
  intros Ha. split.
  - by apply union_returns_left.
  - intros b'. by rewrite !(union_returns_left _ _ _ _ _ _ Ha).
Qed.

Lemma union_left_biased_witness :
  validate ModelB (VObject [("a", VString "asdf"); ("b", VNumber 1234)]) tt =
    (Return (VObject [("b", VNumber 1234)]), tt) /\
  union (validate ModelA) (validate ModelB)
    (VObject [("a", VString "asdf"); ("b", VNumber 1234)]) tt =
    (Return (VObject [("a", VString "asdf")]), tt).
Proof.
  split; [reflexivity|].
  apply (union_left_biased (validate ModelA) (validate ModelB)
           (VObject [("a", VString "asdf"); ("b", VNumber 1234)]) tt).
  reflexivity.
Defined.

(** C5.  [arrayOf(v)] fails with ["an array"] on whatever is not an array
    and returns [[]] on [[]]; on an array it runs [v] on the elements in
    index order and returns the array of the results when all return; when
    the elements before index [i] return and the element at [i] fails
    validation, it fails with ["an array with value at [i], that is <inner
    message>"], whatever the later elements are, and [v] is not run on
    them. *)
Theorem arrayOf_first_failure
    {host : Host} {W} (v : Validator W) (s : W) :
  (forall x, Array_isArray x = false ->
     arrayOf v x s = (Throw (ValidationError "an array"), s)) /\
  arrayOf v (VArray []) s = (Return (VArray []), s) /\
  (forall l rs s',
     all_return v l s rs s' ->
     arrayOf v (VArray l) s = (Return (VArray rs), s')) /\
  (forall l1 x l2 rs s1 e s2 m,
     all_return v l1 s rs s1 ->
     v x s1 = (Throw e, s2) ->
     assertion e = Some m ->
     arrayOf v (VArray (l1 ++ x :: l2)) s =
       (Throw (ValidationError
                 ("an array with value at [" +:+ pretty (length l1)
                    +:+ "], that is " +:+ m)), s2)).
Proof.
  split; [|split; [|split]].
  - intros x Hx. unfold arrayOf. unfold Array_isArray in Hx.
    by destruct (array_elements x).
  - reflexivity.
  - intros l rs s' Hl. unfold arrayOf, array_elements, bind.
    by rewrite (Array_map_returns _ _ _ _ _ _ Hl).
  - intros l1 x l2 rs s1 e s2 m Hl He Hm.
    unfold arrayOf, array_elements, bind.
    rewrite (Array_map_throws _ _ _ l2 0 _ _ _ _ _ Hl He), Hm. simpl.
    by rewrite !append_assoc.
Qed.

Lemma arrayOf_first_failure_witness :
  let v : Validator unit := validators.number in
  arrayOf v (VString "world") tt = (Throw (ValidationError "an array"), tt) /\
  arrayOf v (VArray [VNumber 1; VNumber 2]) tt =
    (Return (VArray [VNumber 1; VNumber 2]), tt) /\
  arrayOf v (VArray [VNumber 1; VString "error"; VNumber 3; VString "error"])
    tt =
    (Throw (ValidationError "an array with value at [1], that is a number"),
     tt).
Proof.
  intros v.
  pose proof (arrayOf_first_failure v tt) as (H1 & _ & H3 & H4).
  split; [|split].
  - apply H1. reflexivity.
  - apply H3. repeat (eapply all_return_cons; [reflexivity|]). constructor.
  - apply (H4 [VNumber 1] (VString "error") [VNumber 3; VString "error"]
              [VNumber 1] tt (ValidationError "a number") tt "a number").
    + eapply all_return_cons; [reflexivity | constructor].
    + reflexivity.
    + reflexivity.
Defined.

(** C9, as stated, fails: reading [data[sourceKey]] walks the prototype
    chain, so a key the data does not have still reads as what an object
    inherits under that name, as for [constructor]; and on [null] the read
    throws a [TypeError]. *)
Lemma MapField_pluck_inherited_counterexample :
  pluck (field (optional validators.string)) "constructor" (VObject []) tt =
    (Throw (ValidationError
              "an object with attribute 'constructor', that is undefined or a string"),
     tt) /\
  pluck (field (optional validators.string)) "a" VNull tt =
    (Throw (OtherError "TypeError"), tt) /\
  ~ (forall (v : Validator unit) (toSourceKey : string -> string)
            (key : string) (o : list (string * value)),
       obj_get (toSourceKey key) o = None ->
       pluck (MapField v toSourceKey) key (VObject o) tt =
         wrapError v
           ("an object with attribute '" +:+ toSourceKey key +:+ "', that is")
           VUndefined tt).
Proof.
  split; [reflexivity|]. split; [reflexivity|].
  intros H.
  specialize (H (optional validators.string) (fun k => k) "constructor" []
                eq_refl).
  discriminate H.
Qed.

(** C9, amended.  A key-transforming field plucks by transforming the key
    into the source key and reading that property of the data: an own
    property of an object reads as its value, and a key that a plain object
    neither has nor inherits from [Object.prototype] reads as [undefined];
    a key it inherits reads as the inherited member.  When the read returns, the validator is run on the value read, wrapped
    with the prefix ["an object with attribute '<sourceKey>', that is"]: a
    failure of the validator renders ["Expected an object with attribute
    '<sourceKey>', that is <inner assertion>."].  When the read throws, as
    on [null], its error comes out and the validator is not run. *)
Theorem MapField_pluck_reads_then_wraps
    {host : Host} {W} (v : Validator W) (toSourceKey : string -> string)
    (key : string) (data : value) (s : W) :
  let sourceKey := toSourceKey key in
  (forall p o y,
     data = VObjectWith p o -> obj_get sourceKey o = Some y ->
     get_property data sourceKey s = (Return y, s)) /\
  (forall o,
     data = VObject o -> obj_get sourceKey o = None ->
     host_member "Object.prototype" sourceKey = NoMember ->
     get_property data sourceKey s = (Return VUndefined, s)) /\
  (forall x,
     get_property data sourceKey s = (Return x, s) ->
     pluck (MapField v toSourceKey) key data s =
       wrapError v
         ("an object with attribute '" +:+ sourceKey +:+ "', that is") x s /\
     (forall r s', v x s = (Return r, s') ->
        pluck (MapField v toSourceKey) key data s = (Return r, s')) /\
     (forall e s' m, v x s = (Throw e, s') -> assertion e = Some m ->
        exists e',
          pluck (MapField v toSourceKey) key data s = (Throw e', s') /\
          message e' =
            "Expected an object with attribute '" +:+ sourceKey
              +:+ "', that is " +:+ m +:+ ".")) /\
  (forall o m,
     data = VObject o -> obj_get sourceKey o = None ->
     host_member "Object.prototype" sourceKey = Member m ->
     get_property data sourceKey s = (Return m, s)) /\
  (forall r s', get_property data sourceKey s = (r, s') -> s' = s) /\
  (forall e,
     get_property data sourceKey s = (Throw e, s) ->
     pluck (MapField v toSourceKey) key data s = (Throw e, s)) /\
  (data = VUndefined \/ data = VNull ->
   pluck (MapField v toSourceKey) key data s =
     (Throw (OtherError "TypeError"), s)) /\
  field v = MapField v (fun k => k) /\
  (forall k, fieldWithKey k v = MapField v (fun _ => k)) /\
  fieldFromSnake v = MapField v snake.
Proof.
  intros sourceKey.
  split; [|split; [|split; [|split; [|split; [|split; [|split; [|done]]]]]]].
  - intros p o y -> Hy. simpl. by rewrite Hy.
  - intros o -> Hy Hm. simpl. rewrite Hy. unfold lift. simpl.
    unfold host_lookup. by rewrite Hm.
  - intros x Hx.
    assert (Hp : pluck (MapField v toSourceKey) key data s =
                 wrapError v
                   ("an object with attribute '" +:+ sourceKey
                      +:+ "', that is") x s).
    { simpl. unfold bind. fold sourceKey. by rewrite Hx. }
    split; [done|]. split.
    + intros r s' Hv. rewrite Hp. by apply wrapError_returns.
    + intros e s' m Hv Hm. rewrite Hp, (wrapError_throws _ _ _ _ _ _ Hv), Hm.
      eexists. split; [reflexivity|]. simpl.
      by rewrite !append_assoc.
  - intros o m -> Hy Hm. simpl. rewrite Hy. unfold lift. simpl.
    unfold host_lookup. by rewrite Hm.
  - intros r s'. unfold get_property, throw, ret, lift.
    destruct data; try (intros [= _ <-]; done);
      match goal with
      | |- context [own_property ?d ?k] => destruct (own_property d k)
      end; by intros [= _ <-].
  - intros e He. simpl. unfold bind. fold sourceKey. by rewrite He.
  - by intros [-> | ->].
Qed.

Lemma MapField_pluck_reads_then_wraps_witness :
  let v : Validator unit := validators.string in
  pluck (fieldFromSnake v) "fullName" (VObject [("full_name", VString "Al")])
    tt = (Return (VString "Al"), tt) /\
  exists e,
    pluck (fieldWithKey "c" v) "something else" (VObject [("a", VNumber 1)])
      tt = (Throw e, tt) /\
    message e = "Expected an object with attribute 'c', that is a string.".
Proof.
  intros v. split.
  - destruct (MapField_pluck_reads_then_wraps v snake "fullName"
                (VObject [("full_name", VString "Al")]) tt)
      as (Hown & _ & Hrun & _).
    destruct (Hrun (VString "Al")) as (_ & Hret & _).
    + by apply (Hown Object_prototype [("full_name", VString "Al")]).
    + apply Hret. reflexivity.
  - destruct (MapField_pluck_reads_then_wraps v (fun _ => "c")
                "something else" (VObject [("a", VNumber 1)]) tt)
      as (_ & Habsent & Hrun & _).
    destruct (Hrun VUndefined) as (_ & _ & Hthrow).
    + by apply (Habsent [("a", VNumber 1)]).
    + apply (Hthrow (ValidationError "a string") tt "a string");
        reflexivity.
Defined.



(** ** Extension *)

(** C7, as stated, fails at a key [__proto__] of a definition: [extend]
    assigns the field to that key of the new object through the setter of
    [Object.prototype], which makes the field the prototype of the new
    definition and defines no property.  The field is gone from the
    extended model: where the base rejects an input, the extended model
    accepts it. *)
Lemma extend_proto_key_counterexample :
  let db : Store.DefinitionObject unit :=
    {| Store.prototype := None;
       Store.properties := [("__proto__", field validators.string);
                            ("q", field validators.string)] |} in
  let de : Store.DefinitionObject unit :=
    {| Store.prototype := None; Store.properties := [] |} in
  let h : gmap positive (Store.DefinitionObject unit) :=
    <[1%positive := db]> (<[2%positive := de]> ∅) in
  let base := {| Store.name := None; Store.definition := 1%positive |} in
  let r := Store.extend base None (Store.ExtDefinition 2%positive) h in
  (exists extended d',
     r.1 = Return extended /\
     r.2 !! Store.definition extended = Some d' /\
     Object_keys (Store.properties d') = ["q"] /\
     Store.validate h base (VObject [("q", VString "y")]) tt =
       (Throw (ValidationError
                 "an object with attribute '__proto__', that is a string"),
        tt) /\
     Store.validate r.2 extended (VObject [("q", VString "y")]) tt =
       (Return (VObject [("q", VString "y")]), tt)) /\
  ~ (forall (h0 : gmap positive (Store.DefinitionObject unit))
            (base0 : Store.ModelObject) (l : positive)
            (db0 de0 : Store.DefinitionObject unit)
            (extended : Store.ModelObject)
            (h' : gmap positive (Store.DefinitionObject unit)),
       h0 !! Store.definition base0 = Some db0 ->
       h0 !! l = Some de0 ->
       Store.extend base0 None (Store.ExtDefinition l) h0
         = (Return extended, h') ->
       exists d',
         h' !! Store.definition extended = Some d' /\
         forall k, obj_get k (Store.properties d') =
           match obj_get k (Store.properties de0) with
           | Some f => Some f
           | None => obj_get k (Store.properties db0)
           end).
Proof.
  intros db de h base r.
  assert (Hr : r =
            (Return {| Store.name := None; Store.definition := 3%positive |},
             <[3%positive :=
                 {| Store.prototype := Some (field validators.string);
                    Store.properties := [("q", field validators.string)] |}]>
               h)).
  { reflexivity. }
  split.
  - rewrite Hr. eexists _, _. split; [reflexivity|].
    split; [reflexivity|]. split; [reflexivity|]. split; reflexivity.
  - intros H.
    destruct (H h base 2%positive db de _ _ eq_refl eq_refl Hr)
      as (d' & Hd' & Hget).
    change (Some {| Store.prototype := Some (field validators.string);
                    Store.properties := [("q", field validators.string)] |}
            = Some d') in Hd'.
    injection Hd' as <-. specialize (Hget "__proto__"). discriminate Hget.
Qed.

(** C7, amended.  [base.extend(name, ext)], with [ext] a definition or a
    model whose definition is taken, creates a new object and writes to no
    object that existed before, so the base model validates every input as
    it did before.  When no key of the two definitions is one the prototype
    chain of a new object intercepts on assignment, as it does
    [__proto__], it returns a model with the given name whose definition is
    that new object: the properties of the base definition and of the
    extension, the extension winning on a common key. *)
Theorem extend_fresh_union
    {host : Host} {W} (h : gmap positive (Store.DefinitionObject W))
    (base : Store.ModelObject) (name : option string)
    (ext : Store.Extension) (db de : Store.DefinitionObject W) :
  h !! Store.definition base = Some db ->
  match ext with
  | Store.ExtModel m => h !! Store.definition m
  | Store.ExtDefinition l => h !! l
  end = Some de ->
  ((forall l, l ∈ dom h -> (Store.extend base name ext h).2 !! l = h !! l) /\
   (forall data (s : W),
      Store.validate (Store.extend base name ext h).2 base data s =
      Store.validate h base data s)) /\
  (NoDup (Object_keys (Store.properties db)) ->
   NoDup (Object_keys (Store.properties de)) ->
   Forall (fun k => host_set "Object.prototype" k = SetOwn)
     (Object_keys (Store.properties db) ++
      Object_keys (Store.properties de)) ->
   exists extended h' d',
     Store.extend base name ext h = (Return extended, h') /\
     Store.name extended = name /\
     (Store.definition extended ∉ dom h) /\
     h' !! Store.definition extended = Some d' /\
     NoDup (Object_keys (Store.properties d')) /\
     (forall k, obj_get k (Store.properties d') =
        match obj_get k (Store.properties de) with
        | Some f => Some f
        | None => obj_get k (Store.properties db)
        end) /\
     forall data (s : W),
       Store.validate h' extended data s =
       validate (model name (Store.properties d')) data s).
Proof.
  intros Hb He. rewrite <- extension_lookup in He. split.
  - split.
    + intros l Hl. by apply extend_frame.
    + intros data s. unfold Store.validate.
      rewrite extend_frame; [done|]. by apply elem_of_dom_2 in Hb.
  - intros Hdb Hde Hown.
    eexists _, _, _. split; [by apply extend_closed|]. simpl.
    split; [done|]. split; [apply is_fresh|].
    split; [apply lookup_insert_eq|]. simpl. split; [|split].
    + apply define_props_NoDup, define_props_NoDup, NoDup_nil_2.
    + intros k. rewrite obj_get_define_props by done.
      destruct (obj_get k (Store.properties de)); [done|].
      rewrite obj_get_define_props by done.
      by destruct (obj_get k (Store.properties db)).
    + intros data s. unfold Store.validate. simpl.
      by rewrite lookup_insert_eq.
Qed.

Lemma extend_fresh_union_witness :
  let db : Store.DefinitionObject unit :=
    {| Store.prototype := None;
       Store.properties :=
         [("e", field validators.number);
          ("f", field (blankable validators.string))] |} in
  let de : Store.DefinitionObject unit :=
    {| Store.prototype := None;
       Store.properties :=
         [("c", field validators.string); ("e", field validators.string)] |} in
  let h : gmap positive (Store.DefinitionObject unit) :=
    <[1%positive := db]> (<[2%positive := de]> ∅) in
  let base := {| Store.name := None; Store.definition := 1%positive |} in
  let other := {| Store.name := Some "Other"; Store.definition := 2%positive |} in
  let r := Store.extend base (Some "MyClass") (Store.ExtModel other) h in
  Store.validate r.2 base (VObject [("e", VNumber 3)]) tt =
    (Return (VObject [("e", VNumber 3)]), tt) /\
  exists extended,
    r.1 = Return extended /\
    Store.validate r.2 extended
      (VObject [("c", VString "x"); ("e", VNumber 3)]) tt =
      (Throw (Named "MyClass"
                "an object with attribute 'e', that is a string"), tt).
Proof.
  intros db de h base other r.
  destruct (extend_fresh_union h base (Some "MyClass")
              (Store.ExtModel other) db de)
    as ((_ & Hbase) & Hunion).
  - reflexivity.
  - reflexivity.
  - split.
    + unfold r. rewrite Hbase. reflexivity.
    + destruct Hunion as (extended & h' & d' & Hr & _).
      * by apply (bool_decide_unpack _).
      * by apply (bool_decide_unpack _).
      * repeat (apply Forall_cons; split; [reflexivity|]).
        apply Forall_nil_2.
      * exists extended. unfold r. rewrite Hr. split; [reflexivity|].
        change (Store.extend base (Some "MyClass") (Store.ExtModel other) h)
          with (Return {| Store.name := Some "MyClass";
                          Store.definition := 3%positive |},
                <[3%positive :=
                    {| Store.prototype := None;
                       Store.properties :=
                         [("e", field validators.string);
                          ("f", field (blankable validators.string));
                          ("c", field validators.string)] |}]> h) in Hr.
        injection Hr as <- <-. reflexivity.
Defined.

(** * Further properties of the engine *)

(** ** [wrapError] *)

Lemma length_append (s1 s2 : string) :
  String.length (s1 +:+ s2) = String.length s1 + String.length s2.
Proof.
  induction s1 as [|c s1 IH]; [done|].
  change (S (String.length (s1 +:+ s2)) =
          S (String.length s1 + String.length s2)).
  by rewrite IH.
Qed.

Lemma prefixed_neq (p m : string) : p +:+ " " +:+ m <> m.
Proof.
  intros Heq. apply (f_equal String.length) in Heq.
  rewrite !length_append in Heq. simpl in Heq. lia.
Qed.

(** X1.  Wrapping twice is wrapping once with the two prefixes joined, the
    outer one first. *)
Theorem wrapError_nested
    {W} (v : Validator W) (p q : string) (x : value) (s : W) :
  wrapError (wrapError v p) q x s = wrapError v (q +:+ " " +:+ p) x s.
Proof.
  unfold wrapError, try_catch.
  destruct (v x s) as [[r|e] s']; [done|].
  destruct e; unfold throw; simpl; try done;
    by rewrite !append_assoc.
Qed.

(** X2.  [wrapError] changes what a validator does on an input exactly when
    the validator fails validation there: what it returns, what it throws
    of another kind and what it does to the world are kept. *)
Theorem wrapError_changes_validation_failures_only
    {W} (v : Validator W) (p : string) (x : value) (s : W) :
  wrapError v p x s = v x s <->
  (forall e s', v x s = (Throw e, s') -> instanceof_ValidationError e = false).
Proof.
  unfold wrapError, try_catch.
  destruct (v x s) as [[r|e] s'] eqn:Hv.
  - split; [intros _ e0 s0 [=] | done].
  - split.
    + intros Heq e' s'' [= <- <-].
      destruct e as [m|n m|y]; simpl; unfold throw in Heq.
      * exfalso. injection Heq as Heq. by apply prefixed_neq in Heq.
      * discriminate Heq.
      * done.
    + intros H. specialize (H e s' eq_refl). by destruct e.
Qed.

(** ** [union] *)

(** X3.  [union] is associative: both nestings try the three validators in
    the same order, return the first result, let the first error of another
    kind through, and compose the same message. *)
Theorem union_assoc {W} (a b c : Validator W) (x : value) (s : W) :
  union (union a b) c x s = union a (union b c) x s.
Proof.
  unfold union, bind, try_return, validationMessageOf, ret, throw.
  destruct (a x s) as [[ra|[ma|na ma|ya]] s1]; simpl; try done.
  all: destruct (b x s1) as [[rb|[mb|nb mb|yb]] s2]; simpl; try done.
  all: destruct (c x s2) as [[rc|[mc|nc mc|yc]] s3]; simpl; try done.
  all: by rewrite !append_assoc.
Qed.

(** ** [arrayOf] *)

Lemma Array_map_returned {W} (v : Validator W) l index s rs s' :
  Array_map (arrayOf_callback v) l index s = (Return rs, s') ->
  all_return v l s rs s'.
Proof.
  revert index s rs.
  induction l as [|x l IH]; simpl; intros index s rs Hr.
  - injection Hr as <- <-. constructor.
  - unfold bind at 1 in Hr. unfold arrayOf_callback at 1 in Hr.
    unfold wrapError, try_catch in Hr.
    destruct (v x s) as [[r|e] s1] eqn:Hx; [|by destruct e].
    unfold bind in Hr.
    destruct (Array_map (arrayOf_callback v) l (S index) s1)
      as [[rs'|e] s2] eqn:Hl; [|done].
    injection Hr as <- <-. econstructor; [done|]. by eapply IH.
Qed.

(** X4.  What [arrayOf(v)] returns is an array as long as its input, an
    array too, whose elements are what [v] returns on the elements of the
    input, run in index order. *)
Theorem arrayOf_returns_inv
    {host : Host} {W} (v : Validator W) (x : value) (s : W)
    (r : value) (s' : W) :
  arrayOf v x s = (Return r, s') ->
  exists l rs,
    Array_isArray x = true /\ array_elements x = Some l /\
    (x = VArray l \/ exists id, x = VHost id) /\
    r = VArray rs /\
    all_return v l s rs s' /\ length rs = length l.
Proof.
  unfold arrayOf, Array_isArray.
  destruct (array_elements x) as [l|] eqn:Hx; [|done].
  unfold bind.
  destruct (Array_map (arrayOf_callback v) l 0 s) as [[rs|e] s1] eqn:Hl;
    [|done].
  intros [= <- <-]. apply Array_map_returned in Hl.
  exists l, rs. split; [done|]. split; [done|]. split.
  - destruct x; simpl in Hx; try done; [left; congruence | right; eauto].
  - repeat split; [done|]. by eapply all_return_length.
Qed.

Lemma arrayOf_returns_inv_witness :
  exists rs,
    arrayOf (W:=unit) number_plus_one (VArray [VNumber 1; VNumber 2]) tt =
      (Return (VArray rs), tt) /\
    length rs = 2.
Proof.
  destruct (arrayOf_returns_inv number_plus_one
              (VArray [VNumber 1; VNumber 2]) tt
              (VArray [VNumber 2; VNumber 3]) tt eq_refl)
    as (l & rs & _ & Hl & _ & Hr & _ & Hlen).
  injection Hl as <-. injection Hr as <-.
  eexists. split; [reflexivity | exact Hlen].
Defined.

(** X5.  An error of another kind than validation, thrown by [v] on an
    element, comes out of [arrayOf(v)] unchanged, with no index added, and
    the later elements are not visited. *)
Theorem arrayOf_defect_propagates
    {host : Host} {W} (v : Validator W) (l1 : list value) (x : value) (l2 : list value)
    (s : W) (rs : list value) (s1 : W) (e : thrown) (s2 : W) :
  all_return v l1 s rs s1 ->
  v x s1 = (Throw e, s2) ->
  instanceof_ValidationError e = false ->
  arrayOf v (VArray (l1 ++ x :: l2)) s = (Throw e, s2).
Proof.
  intros Hl He Hk. unfold arrayOf, array_elements, bind.
  rewrite (Array_map_throws _ _ _ l2 0 _ _ _ _ _ Hl He).
  by destruct e.
Qed.

Lemma arrayOf_defect_propagates_witness :
  arrayOf (W:=unit)
    (union validators.number (fun _ => throw (OtherError "Test error")))
    (VArray [VNumber 1; VString "x"; VNumber 3]) tt =
  (Throw (OtherError "Test error"), tt).
Proof.
  apply (arrayOf_defect_propagates _ [VNumber 1] (VString "x") [VNumber 3]
           tt [VNumber 1] tt (OtherError "Test error") tt).
  - eapply all_return_cons; [reflexivity | constructor].
  - reflexivity.
  - reflexivity.
Defined.

(** X6.  Arrays of arrays: the error of a failing inner element names the
    index in the outer array, then the index in the inner one. *)
Theorem arrayOf_nested_path
    {host : Host} {W} (v : Validator W) (l1 : list value) (m1 : list value) (x : value)
    (m2 l2 : list value) (s : W) (rs : list value) (s1 : W)
    (rs' : list value) (s2 : W) (e : thrown) (s3 : W) (m : string) :
  all_return (arrayOf v) l1 s rs s1 ->
  all_return v m1 s1 rs' s2 ->
  v x s2 = (Throw e, s3) ->
  assertion e = Some m ->
  arrayOf (arrayOf v) (VArray (l1 ++ VArray (m1 ++ x :: m2) :: l2)) s =
    (Throw (ValidationError
              ("an array with value at [" +:+ pretty (length l1)
                 +:+ "], that is an array with value at ["
                 +:+ pretty (length m1) +:+ "], that is " +:+ m)), s3).
Proof.
  intros Hl Hm He Hass.
  assert (Hin : arrayOf v (VArray (m1 ++ x :: m2)) s1 =
                (Throw (ValidationError
                          ("an array with value at [" +:+ pretty (length m1)
                             +:+ "], that is " +:+ m)), s3)).
  { unfold arrayOf, array_elements, bind.
    rewrite (Array_map_throws _ _ _ m2 0 _ _ _ _ _ Hm He), Hass. simpl.
    by rewrite !append_assoc. }
  unfold arrayOf at 1. unfold array_elements, bind.
  rewrite (Array_map_throws _ _ _ l2 0 _ _ _ _ _ Hl Hin). simpl.
  by rewrite !append_assoc.
Qed.

Lemma arrayOf_nested_path_witness :
  arrayOf (W:=unit) (arrayOf validators.number)
    (VArray [VArray [VNumber 1]; VArray [VNumber 2; VNumber 3; VNull]]) tt =
  (Throw (ValidationError
            "an array with value at [1], that is an array with value at [2], that is a number"),
   tt).
Proof.
  apply (arrayOf_nested_path validators.number
           [VArray [VNumber 1]] [VNumber 2; VNumber 3] VNull [] []
           tt [VArray [VNumber 1]] tt [VNumber 2; VNumber 3] tt
           (ValidationError "a number") tt "a number").
  - eapply all_return_cons; [reflexivity | constructor].
  - repeat (eapply all_return_cons; [reflexivity|]). constructor.
  - reflexivity.
  - reflexivity.
Defined.

(** ** Fields in a model *)

Section LoopFacts.
Context {host : Host} {W : Type}.
Implicit Types (d : list (string * Field W)) (data : value) (s : W).

Lemma NoDup_keys_remove {A} (o1 o2 : list (string * A)) k a :
  NoDup (Object_keys (o1 ++ (k, a) :: o2)) -> NoDup (Object_keys (o1 ++ o2)).
Proof.
  rewrite !keys_app. simpl. rewrite !NoDup_app.
  intros (H1 & H2 & H3). split; [done|]. split.
  - intros x Hx Hx2. apply (H2 x Hx). apply elem_of_cons. by right.
  - by apply NoDup_cons in H3 as [_ H3].
Qed.

(** A field that plucks [undefined] and leaves the world alone may be
    taken out of the definition. *)
Lemma validate_skip_field nm d1 k f d2 data s :
  NoDup (Object_keys (d1 ++ (k, f) :: d2)) ->
  (forall s0, pluck f k data s0 = (Return VUndefined, s0)) ->
  validate (model nm (d1 ++ (k, f) :: d2)) data s =
  validate (model nm (d1 ++ d2)) data s.
Proof.
  intros Hnd Hf.
  destruct (decide (typeof data = "object")) as [Hty|Hty].
  2: by rewrite !validate_not_object.
  rewrite !validate_object by eauto using NoDup_keys_remove.
  rewrite !pluck_entries_app.
  destruct (pluck_entries d1 data (Object_prototype, []) s) as [[r1|e] s1];
    [|done].
  by rewrite (pluck_entries_step _ _ _ _ _ _ _ _ (Hf s1)).
Qed.

(** Reading a key of a plain object: its own property, or [undefined] when
    the object neither has nor inherits the key. *)
Lemma get_property_plain o key s :
  (obj_get key o = None ->
   host_member "Object.prototype" key = NoMember) ->
  get_property (VObject o) key s =
  (Return (from_option_undefined (obj_get key o)), s).
Proof.
  intros Hk. simpl. destruct (obj_get key o); [done|].
  unfold lift. simpl. unfold host_lookup. by rewrite Hk.
Qed.
End LoopFacts.

(** X7.  A field made optional or blankable costs nothing when its source
    key is absent, neither a property of the input object nor inherited by
    it: the model validates the object as if the field were not in the
    definition, the result has no such key and the validator of the field
    is not run.  The same holds when the source value is [undefined] and,
    for a blankable field, when it is [null]. *)
Theorem validate_blank_field_omitted
    {host : Host} {W} (nm : option string) (d1 d2 : list (string * Field W))
    (k : string) (v : Validator W) (toSourceKey : string -> string)
    (o : list (string * value)) (s : W) :
  NoDup (Object_keys d1 ++ k :: Object_keys d2) ->
  (obj_get (toSourceKey k) o = None /\
   host_member "Object.prototype" (toSourceKey k) = NoMember \/
   obj_get (toSourceKey k) o = Some VUndefined ->
   validate (model nm (d1 ++ (k, MapField (optional v) toSourceKey) :: d2))
     (VObject o) s =
   validate (model nm (d1 ++ d2)) (VObject o) s) /\
  (obj_get (toSourceKey k) o = None /\
   host_member "Object.prototype" (toSourceKey k) = NoMember \/
   obj_get (toSourceKey k) o = Some VUndefined \/
   obj_get (toSourceKey k) o = Some VNull ->
   validate (model nm (d1 ++ (k, MapField (blankable v) toSourceKey) :: d2))
     (VObject o) s =
   validate (model nm (d1 ++ d2)) (VObject o) s).
Proof.
  intros Hnd. split; intros Hk; apply validate_skip_field;
    try (by rewrite keys_app); intros s0;
    change (pluck (MapField ?w toSourceKey) k (VObject o) s0)
      with (bind (get_property (VObject o) (toSourceKey k))
              (wrapError w
                 ("an object with attribute '" +:+ toSourceKey k
                    +:+ "', that is")) s0);
    unfold bind; rewrite get_property_plain.
  - by destruct Hk as [[-> _]| ->].
  - destruct Hk as [[_ Hk]| Hk]; [done | by rewrite Hk].
  - by destruct Hk as [[-> _]|[->| ->]].
  - destruct Hk as [[_ Hk]|[Hk|Hk]]; [done | by rewrite Hk | by rewrite Hk].
Qed.

Lemma validate_blank_field_omitted_witness :
  validate (W:=unit)
    (model None [("name", field validators.string);
                 ("age", field (optional validators.number))])
    (VObject [("name", VString "Al")]) tt =
  (Return (VObject [("name", VString "Al")]), tt).
Proof.
  destruct (validate_blank_field_omitted None
              [("name", field validators.string)] [] "age"
              validators.number (fun key => key)
              [("name", VString "Al")] tt) as [Hopt _].
  - by apply (bool_decide_unpack _).
  - exact (eq_trans (Hopt (or_introl (conj eq_refl eq_refl))) eq_refl).
Defined.

(** X8.  A required field whose source key is missing: when the validator
    of a key-transforming field fails validation on [undefined], as
    [string], [number] and [boolean] do, a model fails on an object that
    neither has nor inherits the source key, and the message names the
    source key, not the key of the result. *)
Theorem validate_missing_required_field
    {host : Host} {W} (nm : option string) (d1 : list (string * Field W))
    (k : string) (v : Validator W) (toSourceKey : string -> string)
    (d2 : list (string * Field W)) (o : list (string * value))
    (s : W) (vs : list value) (s1 : W) (e : thrown) (s2 : W) (m : string) :
  NoDup (Object_keys d1 ++ k :: Object_keys d2) ->
  plucked (VObject o) d1 s vs s1 ->
  obj_get (toSourceKey k) o = None ->
  host_member "Object.prototype" (toSourceKey k) = NoMember ->
  v VUndefined s1 = (Throw e, s2) ->
  assertion e = Some m ->
  message_of
    (validate (model nm (d1 ++ (k, MapField v toSourceKey) :: d2))
       (VObject o) s) =
    Some (match nm with
          | Some n => n +:+ " expected "
          | None => "Expected "
          end +:+ "an object with attribute '" +:+ toSourceKey k
            +:+ "', that is " +:+ m +:+ ".") /\
  (forall s0 : W,
     validators.string VUndefined s0 = (Throw (ValidationError "a string"), s0) /\
     validators.number VUndefined s0 = (Throw (ValidationError "a number"), s0) /\
     validators.boolean VUndefined s0 =
       (Throw (ValidationError "a boolean"), s0)).
Proof.
  intros Hnd Hvs Hk Hin Hv Hm. split; [|done].
  assert (Hp : pluck (MapField v toSourceKey) k (VObject o) s1 =
               (Throw (ValidationError
                         (("an object with attribute '" +:+ toSourceKey k
                             +:+ "', that is") +:+ " " +:+ m)), s2)).
  { change (pluck (MapField v toSourceKey) k (VObject o) s1)
      with (bind (get_property (VObject o) (toSourceKey k))
              (wrapError v
                 ("an object with attribute '" +:+ toSourceKey k
                    +:+ "', that is")) s1).
    unfold bind. rewrite get_property_plain by done. rewrite Hk. simpl.
    by rewrite (wrapError_throws _ _ _ _ _ _ Hv), Hm. }
  rewrite validate_object by (by rewrite ?keys_app).
  rewrite (plucked_prefix_throws _ _ _ _ _ _ _ _ _ _ Hvs Hp).
  unfold message_of. simpl.
  destruct nm; simpl; by rewrite !append_assoc.
Qed.

Lemma validate_missing_required_field_witness :
  message_of
    (validate (example_model (Some "MyClass"))
       (VObject [("aKey", VString "1"); ("d", VObject [("e", VNumber 2)])])
       tt) =
  Some "MyClass expected an object with attribute 'a_key', that is a string.".
Proof.
  apply (validate_missing_required_field (Some "MyClass") [] "aKey"
           validators.string snake _ _ tt [] tt
           (ValidationError "a string") tt "a string").
  - by apply (bool_decide_unpack _).
  - split; [constructor | eexists; reflexivity].
  - reflexivity.
  - reflexivity.
  - reflexivity.
  - reflexivity.
Defined.

Lemma obj_get_zip_keys {A B} (d : list (string * A)) (g : string -> B) k :
  obj_get k (zip (map fst d) (map (fun kv => g kv.1) d)) =
  if bool_decide (k ∈ map fst d) then Some (g k) else None.
Proof.
  induction d as [|[k' a] d IH]; simpl; [done|].
  destruct (String.eqb_spec k' k) as [->|Hne].
  - rewrite bool_decide_eq_true_2; [done|]. apply elem_of_cons. by left.
  - rewrite IH. apply (f_equal (fun b : bool => if b then Some (g k) else None)).
    apply bool_decide_ext. rewrite elem_of_cons.
    split; [by right | intros [?|?]; [congruence | done]].
Qed.

Lemma all_return_identity_fields
    {host : Host} {W} (d : list (string * Validator W))
    (o : list (string * value)) (s : W) :
  Forall (fun k => obj_get k o = None ->
                   host_member "Object.prototype" k = NoMember) (map fst d) ->
  (forall k v, (k, v) ∈ d -> forall s0,
     v (from_option_undefined (obj_get k o)) s0 =
       (Return (from_option_undefined (obj_get k o)), s0)) ->
  all_return (fun kf => pluck kf.2 kf.1 (VObject o))
    (map (fun kv => (kv.1, field kv.2)) d) s
    (map (fun kv => from_option_undefined (obj_get kv.1 o)) d) s.
Proof.
  intros Hin Hd. induction d as [|[k v] d IH]; simpl; [constructor|].
  apply Forall_cons in Hin as [Hk Hin].
  eapply (all_return_cons _ (k, field v)).
  - cbn [fst snd] in *.
    change (pluck (field v) k (VObject o) s)
      with (bind (get_property (VObject o) k)
              (wrapError v ("an object with attribute '" +:+ k
                              +:+ "', that is")) s).
    unfold bind. rewrite get_property_plain by done.
    apply wrapError_returns. apply Hd.
    apply elem_of_cons. by left.
  - apply IH; [done|]. intros k' v' Hin'. apply Hd. apply elem_of_cons.
    by right.
Qed.

(** X9.  A model of plain fields whose validators accept the values of an
    object and return them as they are gives back the object restricted to
    the keys of the definition: the other keys of the input are dropped, and
    the world is untouched.  When the input has no other key, the result
    has the properties of the input.  The keys of the definition are ones
    the object does not inherit when it lacks them, and ones an assignment
    defines on a new object. *)
Theorem validate_keeps_defined_keys
    {host : Host} {W} (nm : option string) (d : list (string * Validator W))
    (o : list (string * value)) (s : W) :
  NoDup (map fst d) ->
  Forall (fun k => host_set "Object.prototype" k = SetOwn) (map fst d) ->
  Forall (fun k => obj_get k o = None ->
                   host_member "Object.prototype" k = NoMember) (map fst d) ->
  (forall k v, (k, v) ∈ d -> forall s0,
     v (from_option_undefined (obj_get k o)) s0 =
       (Return (from_option_undefined (obj_get k o)), s0)) ->
  exists r,
    validate (model nm (map (fun kv => (kv.1, field kv.2)) d)) (VObject o) s =
      (Return (VObject r), s) /\
    NoDup (Object_keys r) /\
    (forall k, obj_get k r =
       if bool_decide (k ∈ map fst d) then
         match obj_get k o with
         | Some x => if is_undefined x then None else Some x
         | None => None
         end
       else None) /\
    ((forall k, k ∈ Object_keys o -> k ∈ map fst d) ->
     (forall k, obj_get k o <> Some VUndefined) ->
     forall k, obj_get k r = obj_get k o).
Proof.
  intros Hnd Hown Hin Hd.
  set (def := map (fun kv : string * Validator W => (kv.1, field kv.2)) d).
  assert (Hkeys : Object_keys def = map fst d).
  { unfold def, Object_keys. rewrite map_map. done. }
  pose proof (all_return_identity_fields d o s Hin Hd) as Hvs. fold def in Hvs.
  set (vs := map (fun kv : string * Validator W =>
                    from_option_undefined (obj_get kv.1 o)) d) in *.
  assert (Hget : forall k,
            obj_get k (collect [] (zip (Object_keys def) vs)) =
            if bool_decide (k ∈ map fst d) then
              match obj_get k o with
              | Some x => if is_undefined x then None else Some x
              | None => None
              end
            else None).
  { intros k. rewrite obj_get_collect by (apply zip_keys_NoDup; by rewrite Hkeys).
    rewrite Hkeys. unfold vs.
    rewrite (obj_get_zip_keys d
               (fun k => from_option_undefined (obj_get k o))).
    destruct (bool_decide (k ∈ map fst d)); [|done].
    by destruct (obj_get k o) as [[]|]. }
  exists (collect [] (zip (Object_keys def) vs)).
  split; [|split; [|split]].
  - apply validate_returns_own; by rewrite ?Hkeys.
  - apply collect_NoDup, NoDup_nil_2.
  - exact Hget.
  - intros Hsub Hdef k. rewrite Hget.
    destruct (obj_get k o) as [x|] eqn:Hk.
    + rewrite bool_decide_eq_true_2.
      * destruct x; try done. by destruct (Hdef k).
      * apply Hsub. destruct (decide (k ∈ Object_keys o)) as [|Hn]; [done|].
        apply obj_get_None in Hn. congruence.
    + by destruct (bool_decide (k ∈ map fst d)).
Qed.

Lemma validate_keeps_defined_keys_witness :
  exists r,
    validate (W:=unit)
      (model None [("a", field validators.string);
                   ("b", field (optional validators.number))])
      (VObject [("a", VString "x"); ("zzz", VNumber 1)]) tt =
      (Return (VObject r), tt) /\
    obj_get "a" r = Some (VString "x") /\
    obj_get "zzz" r = None.
Proof.
  destruct (validate_keeps_defined_keys (W:=unit) None
              [("a", validators.string); ("b", optional validators.number)]
              [("a", VString "x"); ("zzz", VNumber 1)] tt)
    as (r & Hr & _ & Hget & _).
  - by apply (bool_decide_unpack _).
  - repeat (apply Forall_cons; split; [reflexivity|]). apply Forall_nil_2.
  - repeat (apply Forall_cons; split; [reflexivity|]). apply Forall_nil_2.
  - intros k v Hin s0.
    apply elem_of_cons in Hin as [[= -> ->]|Hin]; [reflexivity|].
    apply elem_of_cons in Hin as [[= -> ->]|Hin]; [reflexivity|].
    by apply elem_of_nil in Hin.
  - exists r. split; [exact Hr|]. split; rewrite Hget; reflexivity.
Defined.

(** X10.  The name of a model plays no part in what it accepts: two models
    with the same definition return the same result and leave the same
    world; when they fail, the assertion and the world are the same, and an
    error of another kind is the same error. *)
Theorem validate_name_only_in_errors
    {host : Host} {W} (n n' : option string) (d : list (string * Field W))
    (data : value) (s : W) :
  match validate (model n d) data s, validate (model n' d) data s with
  | (Return r, s1), (Return r', s1') => r = r' /\ s1 = s1'
  | (Throw e, s1), (Throw e', s1') =>
      assertion e = assertion e' /\ s1 = s1' /\
      (instanceof_ValidationError e = false -> e = e')
  | _, _ => False
  end.
Proof.
  assert (Hnone : forall n0,
            validate (model n0 d) data s =
            match validate (model None d) data s with
            | (Return r, s') => (Return r, s')
            | (Throw e, s') =>
                (Throw match e, n0 with
                       | (ValidationError m | Named _ m), Some n1 => Named n1 m
                       | _, _ => e
                       end, s')
            end).
  { intros [n0|].
    - rewrite validate_named_unnamed.
      destruct (validate (model None d) data s) as [[r|e] s']; [done|].
      by destruct e.
    - destruct (validate (model None d) data s) as [[r|e] s']; [done|].
      by destruct e. }
  rewrite (Hnone n), (Hnone n').
  destruct (validate (model None d) data s) as [[r|e] s']; [done|].
  destruct e, n, n'; done.
Qed.

(** X11.  A [multiField] hands the whole input to its validator, whatever
    the key: in a model, once the fields before it have returned, an error
    of its validator comes out with no attribute prefix, unchanged by an
    unnamed model and under the name of a named one. *)
Theorem multiField_error_unprefixed
    {host : Host} {W} (nm : option string) (d1 : list (string * Field W)) (k : string)
    (v : Validator W) (d2 : list (string * Field W)) (data : value)
    (s : W) (vs : list value) (s1 : W) (e : thrown) (s2 : W) :
  NoDup (Object_keys d1 ++ k :: Object_keys d2) ->
  typeof data = "object" ->
  plucked data d1 s vs s1 ->
  v data s1 = (Throw e, s2) ->
  validate (model nm (d1 ++ (k, multiField v) :: d2)) data s =
    (Throw match e, nm with
           | (ValidationError m | Named _ m), Some n => Named n m
           | _, _ => e
           end, s2).
Proof.
  intros Hnd Hty Hvs Hv.
  rewrite validate_object by (by rewrite ?keys_app).
  by rewrite (plucked_prefix_throws _ k (multiField v) _ _ _ _ _ _ _ Hvs Hv).
Qed.

Lemma multiField_error_unprefixed_witness :
  validate (W:=unit)
    (model None
       [("name", field validators.string);
        ("budget",
         multiField
           (validate
              (model (Some "Budget")
                 [("min", fieldWithKey "budget_min" validators.number);
                  ("max", fieldWithKey "budget_max" validators.number)])))])
    (VObject [("name", VString "test"); ("budget_min", VNumber 50)]) tt =
  (Throw (Named "Budget"
            "an object with attribute 'budget_max', that is a number"), tt).
Proof.
  apply (multiField_error_unprefixed None
           [("name", field validators.string)] "budget" _ []
           (VObject [("name", VString "test"); ("budget_min", VNumber 50)])
           tt [VString "test"] tt
           (Named "Budget"
              "an object with attribute 'budget_max', that is a number") tt).
  - by apply (bool_decide_unpack _).
  - reflexivity.
  - split; [|eexists; reflexivity].
    eapply all_return_cons; [reflexivity | constructor].
  - reflexivity.
Defined.

(** ** [Object.assign] and [extend] *)

Section AssignFacts.
Context {A : Type}.
Implicit Types (t src : list (string * A)) (k : string).

Lemma obj_replace_map k a t :
  obj_get k t <> None ->
  NoDup (Object_keys t) ->
  obj_replace k a t =
  map (fun kv => (kv.1, if String.eqb kv.1 k then a else kv.2)) t.
Proof.
  induction t as [|[k' a'] t IH]; simpl; intros Hk Hnd; [done|].
  apply NoDup_cons in Hnd as [Hk' Hnd].
  destruct (String.eqb_spec k' k) as [->|Hne].
  - f_equal. clear IH Hk. induction t as [|[k2 a2] t IH]; simpl; [done|].
    simpl in Hk'. apply not_elem_of_cons in Hk' as [Hk2 Hk'].
    apply NoDup_cons in Hnd as [_ Hnd].
    rewrite <- IH by done.
    by apply not_eq_sym, String.eqb_neq in Hk2 as ->.
  - by rewrite IH.
Qed.

Lemma filter_new_keys_all t :
  filter (fun kv : string * A => kv.1 ∉ Object_keys (@nil (string * A))) t = t.
Proof.
  induction t as [|kv t IH]; [done|].
  rewrite filter_cons_True by apply not_elem_of_nil. by rewrite IH.
Qed.

Lemma filter_ext_elem_of {B} (P Q : B -> Prop)
    `{!forall x, Decision (P x)} `{!forall x, Decision (Q x)} (l : list B) :
  (forall x, x ∈ l -> (P x <-> Q x)) -> filter P l = filter Q l.
Proof.
  induction l as [|x l IH]; intros HPQ; [done|].
  assert (Hl : filter P l = filter Q l).
  { apply IH. intros y Hy. apply HPQ, elem_of_cons. by right. }
  destruct (decide (P x)) as [HP|HP].
  - rewrite !filter_cons_True; [by rewrite Hl| |done].
    apply HPQ; [apply elem_of_cons; by left | done].
  - rewrite !filter_cons_False; [done| |done].
    intros HQ. apply HP, HPQ; [apply elem_of_cons; by left | done].
Qed.

(** [Object.assign] on keys that are no array indices. *)
Lemma define_props_merged t src :
  NoDup (Object_keys t) ->
  NoDup (Object_keys src) ->
  Forall (fun k => array_index k = None) (Object_keys src) ->
  define_props t src = merged t src.
Proof.
  unfold define_props, merged. revert t.
  induction src as [|[k a] src IH]; simpl; intros t Ht Hsrc Hidx.
  - rewrite app_nil_r. induction t as [|[k' a'] t IHt]; simpl; [done|].
    apply NoDup_cons in Ht as [_ Ht]. by rewrite <- IHt.
  - apply NoDup_cons in Hsrc as [Hk Hsrc].
    apply Forall_cons in Hidx as [Hik Hidx].
    assert (Hksrc : obj_get k src = None) by by apply obj_get_None.
    unfold obj_define. destruct (obj_get k t) as [a0|] eqn:Hkt.
    + rewrite IH; [|by rewrite obj_keys_replace|done|done].
      rewrite obj_keys_replace.
      rewrite filter_cons_False.
      2: { simpl. intros Hn. apply Hn.
           destruct (decide (k ∈ Object_keys t)) as [|Hnot]; [done|].
           apply obj_get_None in Hnot. congruence. }
      f_equal. rewrite obj_replace_map by (done || congruence).
      rewrite map_map. apply map_ext_in. intros [k' a'] _. simpl.
      destruct (String.eqb_spec k' k) as [->|Hne].
      * by rewrite String.eqb_refl, Hksrc.
      * by apply not_eq_sym, String.eqb_neq in Hne as ->.
    + rewrite Hik. rewrite IH; [| |done|done].
      2: { rewrite keys_app. simpl. apply NoDup_app. split; [done|].
           split; [|apply NoDup_singleton].
           intros x Hx [->|Hin]%elem_of_cons; [|by apply elem_of_nil in Hin].
           apply obj_get_None in Hkt. done. }
      rewrite map_app. simpl. rewrite Hksrc. simpl.
      rewrite <- app_assoc. simpl.
      rewrite filter_cons_True by (simpl; by apply obj_get_None).
      f_equal.
      * apply map_ext_in. intros [k' a'] Hin. simpl.
        destruct (String.eqb_spec k k') as [->|Hne]; [|done].
        exfalso. apply obj_get_None in Hkt. apply Hkt.
        apply list_elem_of_fmap. exists (k', a'). split; [done|].
        by apply list_elem_of_In.
      * f_equal. apply filter_ext_elem_of. intros [k' a'] Hin. simpl.
        rewrite keys_app. simpl. rewrite elem_of_app, elem_of_cons, elem_of_nil.
        assert (k' <> k).
        { intros ->. apply Hk. apply list_elem_of_fmap. by exists (k, a'). }
        tauto.
Qed.
(** Copying onto the empty object gives the object back. *)
Lemma define_props_copy src :
  NoDup (Object_keys src) ->
  Forall (fun k => array_index k = None) (Object_keys src) ->
  define_props [] src = src.
Proof.
  intros Hnd Hidx. rewrite define_props_merged by (done || apply NoDup_nil_2).
  unfold merged. simpl. apply filter_new_keys_all.
Qed.

Lemma define_props_keys t src k :
  NoDup (Object_keys src) ->
  k ∈ Object_keys (define_props t src) ->
  k ∈ Object_keys t \/ k ∈ Object_keys src.
Proof.
  intros Hnd Hk.
  destruct (obj_get k (define_props t src)) as [a|] eqn:Hget.
  2: { by apply obj_get_None in Hget. }
  rewrite obj_get_define_props in Hget by done.
  destruct (obj_get k src) eqn:Hs.
  - right. destruct (decide (k ∈ Object_keys src)) as [|Hn]; [done|].
    apply obj_get_None in Hn. congruence.
  - left. destruct (decide (k ∈ Object_keys t)) as [|Hn]; [done|].
    apply obj_get_None in Hn. congruence.
Qed.
End AssignFacts.


(** X12.  The order of the fields of an extended model, when no key is an
    array index nor one the prototype chain of a new object intercepts on
    assignment: the keys of the base in their order, a field the extension
    redefines keeping its place, then the new keys of the extension in their
    order.  So the fields of the base are plucked, and their errors
    reported, before the new fields of the extension. *)
Theorem extend_definition_order
    {host : Host} {W} (h : gmap positive (Store.DefinitionObject W))
    (base : Store.ModelObject) (name : option string)
    (ext : Store.Extension) (db de : Store.DefinitionObject W) :
  h !! Store.definition base = Some db ->
  match ext with
  | Store.ExtModel m => h !! Store.definition m
  | Store.ExtDefinition l => h !! l
  end = Some de ->
  NoDup (Object_keys (Store.properties db)) ->
  NoDup (Object_keys (Store.properties de)) ->
  Forall (fun k => array_index k = None)
    (Object_keys (Store.properties db) ++ Object_keys (Store.properties de)) ->
  Forall (fun k => host_set "Object.prototype" k = SetOwn)
    (Object_keys (Store.properties db) ++ Object_keys (Store.properties de)) ->
  exists extended h' d',
    Store.extend base name ext h = (Return extended, h') /\
    h' !! Store.definition extended = Some d' /\
    Store.properties d' = merged (Store.properties db) (Store.properties de) /\
    Object_keys (Store.properties d') =
      Object_keys (Store.properties db) ++
      filter (fun k => k ∉ Object_keys (Store.properties db))
        (Object_keys (Store.properties de)).
Proof.
  intros Hb He Hdb Hde Hidx Hown. rewrite <- extension_lookup in He.
  apply Forall_app in Hidx as [Hidb Hide].
  eexists _, _, _. split; [by apply extend_closed|]. simpl.
  split; [apply lookup_insert_eq|]. simpl.
  assert (Hm : define_props (define_props [] (Store.properties db))
                 (Store.properties de) =
               merged (Store.properties db) (Store.properties de)).
  { rewrite define_props_copy by done. by apply define_props_merged. }
  split; [done|]. rewrite Hm.
  unfold merged. rewrite keys_app. f_equal.
  - unfold Object_keys. rewrite map_map. by apply map_ext.
  - unfold Object_keys. generalize (Store.properties db) as b.
    generalize (Store.properties de) as e. clear.
    intros e b. induction e as [|[k a] e IH]; [done|].
    destruct (decide (k ∈ map fst b)) as [Hin|Hnin].
    + rewrite filter_cons_False by (simpl; tauto). simpl.
      rewrite filter_cons_False by tauto. done.
    + rewrite filter_cons_True by done. simpl.
      rewrite filter_cons_True by done. by rewrite IH.
Qed.

Lemma extend_definition_order_witness :
  let db : Store.DefinitionObject unit :=
    {| Store.prototype := None;
       Store.properties :=
         [("e", field validators.number);
          ("f", field (blankable validators.string))] |} in
  let de : Store.DefinitionObject unit :=
    {| Store.prototype := None;
       Store.properties :=
         [("c", field validators.string); ("e", field validators.string)] |} in
  let h : gmap positive (Store.DefinitionObject unit) :=
    <[1%positive := db]> (<[2%positive := de]> ∅) in
  let base := {| Store.name := None; Store.definition := 1%positive |} in
  let other := {| Store.name := None; Store.definition := 2%positive |} in
  exists extended h' d',
    Store.extend base (Some "MyClass") (Store.ExtModel other) h =
      (Return extended, h') /\
    h' !! Store.definition extended = Some d' /\
    Object_keys (Store.properties d') = ["e"; "f"; "c"].
Proof.
  intros db de h base other.
  destruct (extend_definition_order h base (Some "MyClass")
              (Store.ExtModel other) db de)
    as (extended & h' & d' & Hr & Hd & _ & Hk).
  - reflexivity.
  - reflexivity.
  - by apply (bool_decide_unpack _).
  - by apply (bool_decide_unpack _).
  - repeat (apply Forall_cons; split; [reflexivity|]). apply Forall_nil_2.
  - repeat (apply Forall_cons; split; [reflexivity|]). apply Forall_nil_2.
  - exists extended, h', d'. split; [exact Hr|]. split; [exact Hd|].
    exact (eq_trans Hk eq_refl).
Defined.

(** X13.  Extending twice, when no key is one the prototype chain of a new
    object intercepts on assignment: the second extension wins over the
    first, the first over the base; the model bears the last name; nothing
    that existed before either call is written to, and the model in between
    validates as it did. *)
Theorem extend_twice
    {host : Host} {W} (h : gmap positive (Store.DefinitionObject W))
    (base : Store.ModelObject) (n1 n2 : option string)
    (e1 e2 : Store.Extension) (db d1 d2 : Store.DefinitionObject W) :
  h !! Store.definition base = Some db ->
  match e1 with
  | Store.ExtModel m => h !! Store.definition m
  | Store.ExtDefinition l => h !! l
  end = Some d1 ->
  match e2 with
  | Store.ExtModel m => h !! Store.definition m
  | Store.ExtDefinition l => h !! l
  end = Some d2 ->
  NoDup (Object_keys (Store.properties db)) ->
  NoDup (Object_keys (Store.properties d1)) ->
  NoDup (Object_keys (Store.properties d2)) ->
  Forall (fun k => host_set "Object.prototype" k = SetOwn)
    (Object_keys (Store.properties db) ++ Object_keys (Store.properties d1)
       ++ Object_keys (Store.properties d2)) ->
  exists m1 h1 m2 h2 d',
    Store.extend base n1 e1 h = (Return m1, h1) /\
    Store.extend m1 n2 e2 h1 = (Return m2, h2) /\
    Store.name m2 = n2 /\
    Store.definition m2 <> Store.definition m1 /\
    h2 !! Store.definition m2 = Some d' /\
    NoDup (Object_keys (Store.properties d')) /\
    (forall k, obj_get k (Store.properties d') =
       match obj_get k (Store.properties d2) with
       | Some f => Some f
       | None =>
           match obj_get k (Store.properties d1) with
           | Some f => Some f
           | None => obj_get k (Store.properties db)
           end
       end) /\
    (forall l, l ∈ dom h -> h2 !! l = h !! l) /\
    (forall data (s : W),
       Store.validate h2 m1 data s = Store.validate h1 m1 data s).
Proof.
  intros Hb H1 H2 Hdb Hd1 Hd2 Hown.
  rewrite <- extension_lookup in H1. rewrite <- extension_lookup in H2.
  apply Forall_app in Hown as [Hownb Hown].
  apply Forall_app in Hown as [Hown1 Hown2].
  assert (Hr1 := extend_closed h base n1 e1 db d1 Hb H1
                   (proj2 (Forall_app _ _ _) (conj Hownb Hown1))).
  set (t1 := fresh (dom h)) in *.
  set (D1 := {| Store.prototype := None;
                Store.properties :=
                  define_props (define_props [] (Store.properties db))
                    (Store.properties d1) |}) in *.
  assert (Hfresh1 : t1 ∉ dom h) by apply is_fresh.
  assert (Ht1e2 : t1 <> Store.extension_definition e2).
  { intros Heq. apply Hfresh1. rewrite Heq. by apply elem_of_dom_2 in H2. }
  assert (HD1 : NoDup (Object_keys (Store.properties D1))).
  { apply define_props_NoDup, define_props_NoDup, NoDup_nil_2. }
  assert (HownD1 : Forall (fun k => host_set "Object.prototype" k = SetOwn)
                     (Object_keys (Store.properties D1))).
  { apply Forall_forall. intros k Hk. simpl in Hk.
    apply define_props_keys in Hk as [Hk|Hk]; [| |done].
    - apply define_props_keys in Hk as [Hk|Hk]; [| |done].
      + by apply elem_of_nil in Hk.
      + by apply (proj1 (Forall_forall _ _) Hownb).
    - by apply (proj1 (Forall_forall _ _) Hown1). }
  assert (Hr2 := extend_closed (<[t1:=D1]> h)
                   {| Store.name := n1; Store.definition := t1 |} n2 e2 D1 d2
                   (lookup_insert_eq _ _ _)
                   (eq_trans (lookup_insert_ne _ _ _ _ Ht1e2) H2)
                   (proj2 (Forall_app _ _ _) (conj HownD1 Hown2))).
  set (t2 := fresh (dom (<[t1:=D1]> h))) in *.
  assert (Hfresh2 : t2 ∉ dom (<[t1:=D1]> h)) by apply is_fresh.
  assert (Ht21 : t2 <> t1).
  { intros Heq. apply Hfresh2. rewrite Heq, dom_insert_L. set_solver. }
  eexists _, _, _, _, _. split; [exact Hr1|]. split; [exact Hr2|]. simpl.
  split; [done|]. split; [done|].
  split; [apply lookup_insert_eq|]. simpl. split; [|split; [|split]].
  - apply define_props_NoDup, define_props_NoDup, NoDup_nil_2.
  - intros k. rewrite !obj_get_define_props by done.
    destruct (obj_get k (Store.properties d2)); [done|]. simpl.
    destruct (obj_get k (Store.properties d1)); [done|].
    by destruct (obj_get k (Store.properties db)).
  - intros l Hl. rewrite !lookup_insert_ne; [done|..].
    + intros ->. by apply Hfresh1.
    + intros ->. apply Hfresh2. rewrite dom_insert_L. set_solver.
  - intros data s. unfold Store.validate. simpl.
    by rewrite lookup_insert_ne.
Qed.

Lemma extend_twice_witness :
  let d0 : Store.DefinitionObject unit :=
    {| Store.prototype := None;
       Store.properties :=
         [("e", field validators.number);
          ("f", field (blankable validators.string))] |} in
  let d1 : Store.DefinitionObject unit :=
    {| Store.prototype := None;
       Store.properties :=
         [("c", field validators.string);
          ("d", field (blankable validators.number))] |} in
  let d2 : Store.DefinitionObject unit :=
    {| Store.prototype := None;
       Store.properties :=
         [("a", field validators.string);
          ("b", field (blankable validators.number))] |} in
  let h : gmap positive (Store.DefinitionObject unit) :=
    <[1%positive := d0]> (<[2%positive := d1]> (<[3%positive := d2]> ∅)) in
  let base := {| Store.name := None; Store.definition := 1%positive |} in
  let other := {| Store.name := None; Store.definition := 3%positive |} in
  exists m1 h1 m2 h2,
    Store.extend base None (Store.ExtDefinition 2%positive) h =
      (Return m1, h1) /\
    Store.extend m1 (Some "MyClass") (Store.ExtModel other) h1 =
      (Return m2, h2) /\
    Store.name m2 = Some "MyClass" /\ h2 !! 1%positive = Some d0.
Proof.
  intros d0 d1 d2 h base other.
  destruct (extend_twice h base None (Some "MyClass")
              (Store.ExtDefinition 2%positive) (Store.ExtModel other)
              d0 d1 d2)
    as (m1 & h1 & m2 & h2 & d' & Hr1 & Hr2 & Hn & _ & _ & _ & _ & Hframe & _).
  - reflexivity.
  - reflexivity.
  - reflexivity.
  - by apply (bool_decide_unpack _).
  - by apply (bool_decide_unpack _).
  - by apply (bool_decide_unpack _).
  - repeat (apply Forall_cons; split; [reflexivity|]). apply Forall_nil_2.
  - exists m1, h1, m2, h2. split; [exact Hr1|]. split; [exact Hr2|].
    split; [exact Hn|]. rewrite Hframe; [reflexivity|].
    by apply (bool_decide_unpack _).
Defined.

(** ** [snake] *)

Lemma toLowerCase_not_upper c : is_upper (toLowerCase c) = false.
Proof. destruct c as [[] [] [] [] [] [] [] []]; reflexivity. Qed.

Lemma toLowerCase_idemp c : toLowerCase (toLowerCase c) = toLowerCase c.
Proof. destruct c as [[] [] [] [] [] [] [] []]; reflexivity. Qed.

Lemma toLowerCase_underscore c :
  Ascii.eqb (toLowerCase c) "_" = Ascii.eqb c "_".
Proof. destruct c as [[] [] [] [] [] [] [] []]; reflexivity. Qed.

Lemma upper_or_digit_not_underscore c :
  is_upper c || is_digit c = true -> Ascii.eqb c "_" = false.
Proof. destruct c as [[] [] [] [] [] [] [] []]; try reflexivity; discriminate. Qed.

Lemma replace_matches_not_upper rest in_digits :
  string_forallb (fun c => negb (is_upper c)) (replace_matches rest in_digits)
  = true.
Proof.
  revert in_digits. induction rest as [|c rest IH]; intros b; simpl; [done|].
  destruct (is_upper c) eqn:Hu; simpl.
  - by rewrite toLowerCase_not_upper, IH.
  - destruct (is_digit c); [destruct b|]; simpl; by rewrite ?Hu, IH.
Qed.

(** X14.  The source key [snake] derives has no upper-case letter. *)
Theorem snake_no_upper (key : string) :
  string_forallb (fun c => negb (is_upper c)) (snake key) = true.
Proof.
  destruct key as [|first rest]; simpl; [done|].
  by rewrite toLowerCase_not_upper, replace_matches_not_upper.
Qed.

Lemma replace_matches_fixed rest :
  replace_matches rest false = rest <->
  string_forallb (fun c => negb (is_upper c || is_digit c)) rest = true.
Proof.
  induction rest as [|c rest IH]; simpl; [done|].
  destruct (is_upper c) eqn:Hu; simpl.
  - split; [|done]. intros [= Hc _].
    rewrite <- Hc in Hu. discriminate Hu.
  - destruct (is_digit c) eqn:Hd; simpl.
    + split; [|done]. intros [= Hc _].
      rewrite <- Hc in Hd. discriminate Hd.
    + rewrite <- IH. split; [by intros [= ->] | by intros ->].
Qed.

(** X15.  The keys [snake] leaves as they are: those whose first
    character is its own lower case and that have no upper-case letter of
    [A-Z] and no digit afterwards.  A field built with [fieldFromSnake]
    reads such a key under its own name. *)
Theorem snake_fixed_points (key : string) :
  snake key = key <->
  match key with
  | EmptyString => True
  | String first rest =>
      toLowerCase first = first /\
      string_forallb (fun c => negb (is_upper c || is_digit c)) rest = true
  end.
Proof.
  destruct key as [|first rest]; simpl; [done|].
  rewrite <- replace_matches_fixed. split.
  - by intros [= Hf Hr].
  - by intros [-> ->].
Qed.

Lemma replace_matches_letters rest in_digits :
  letters (replace_matches rest in_digits) = letters rest.
Proof.
  revert in_digits. induction rest as [|c rest IH]; intros b; simpl; [done|].
  destruct (is_upper c) eqn:Hu; simpl.
  - rewrite toLowerCase_underscore, toLowerCase_idemp, IH.
    by rewrite upper_or_digit_not_underscore by by rewrite Hu.
  - destruct (is_digit c); [destruct b|]; simpl; by rewrite ?IH.
Qed.

(** X16.  [snake] only inserts underscores and lowers the case: a key and
    its source key are the same once underscores are removed and the case
    is lowered. *)
Theorem snake_keeps_letters (key : string) :
  letters (snake key) = letters key.
Proof.
  destruct key as [|first rest]; simpl; [done|].
  by rewrite toLowerCase_underscore, toLowerCase_idemp, replace_matches_letters.
Qed.

(** ** [intersect] *)

Lemma elem_of_keys_define_props {A} (t src : list (string * A)) k :
  k ∈ Object_keys (define_props t src) <->
  k ∈ Object_keys t \/ k ∈ Object_keys src.
Proof.
  unfold define_props. revert t.
  induction src as [|[k' a] src IH]; simpl; intros t.
  - rewrite elem_of_nil. tauto.
  - rewrite IH, obj_keys_define, elem_of_cons.
    destruct (obj_get k' t) eqn:Hk'.
    + split; [tauto|]. intros [?|[->|?]]; [tauto| |tauto]. left.
      destruct (decide (k' ∈ Object_keys t)) as [|Hn]; [done|].
      apply obj_get_None in Hn. congruence.
    + rewrite elem_of_cons. tauto.
Qed.

Section AssignInvariant.
Context {host : Host}.

(** An assignment defines its key on the object or leaves the properties
    as they are. *)
Lemma set_property_props k v t t' :
  set_property k v t = Return t' ->
  t'.2 = obj_define k v t.2 \/ t'.2 = t.2.
Proof.
  unfold set_property. destruct (obj_get k t.2).
  - intros [= <-]. by left.
  - destruct (chain_set t.1 k).
    + intros [= <-]. by left.
    + destruct (is_Object v || is_null v); intros [= <-]; by right.
    + intros [= <-]. by right.
    + done.
Qed.

Lemma assign_properties_keys t src t' :
  assign_properties t src = Return t' ->
  NoDup (Object_keys t.2) ->
  NoDup (Object_keys t'.2) /\
  forall k, k ∈ Object_keys t'.2 ->
            k ∈ Object_keys t.2 \/ k ∈ Object_keys src.
Proof.
  revert t. induction src as [|[k v] src IH]; simpl; intros t Hr Hnd.
  - injection Hr as <-. split; [done | by left].
  - destruct (set_property k v t) as [t1|e] eqn:Hset; [|done].
    apply set_property_props in Hset as [Hset|Hset].
    + destruct (IH t1 Hr) as [Hnd' Hin].
      { rewrite Hset. by apply obj_define_NoDup. }
      split; [done|]. intros j Hj. apply Hin in Hj as [Hj|Hj].
      * rewrite Hset, obj_keys_define in Hj.
        destruct (obj_get k t.2); [by left|].
        apply elem_of_cons in Hj as [->|Hj]; [|by left].
        right. apply elem_of_cons. by left.
      * right. apply elem_of_cons. by right.
    + destruct (IH t1 Hr) as [Hnd' Hin]; [by rewrite Hset|].
      split; [done|]. intros j Hj. apply Hin in Hj as [Hj|Hj].
      * left. by rewrite <- Hset.
      * right. apply elem_of_cons. by right.
Qed.
End AssignInvariant.

(** X17.  Whatever [a] and [b] return, what [intersect(a, b)] returns is a
    new object with no other keys than the own enumerable keys of the two
    results: a result that is no object ([undefined], [null], a boolean or
    a number) contributes no key.  When none of those keys is one the prototype chain of a new
    object intercepts on assignment, the object is a plain one and has all
    of them. *)
Theorem intersect_returns_object
    {host : Host} {W} (a b : Validator W) (x : value) (s : W)
    (r : value) (s' : W) :
  intersect a b x s = (Return r, s') ->
  exists ra s1 rb p o,
    a x s = (Return ra, s1) /\
    b x s1 = (Return rb, s') /\
    r = VObjectWith p o /\
    NoDup (Object_keys o) /\
    (forall k, k ∈ Object_keys o ->
               k ∈ Object_keys (own_enumerable ra) \/
               k ∈ Object_keys (own_enumerable rb)) /\
    (forall v, typeof v <> "object" -> typeof v <> "string" ->
               (forall id, v <> VHost id) -> own_enumerable v = []) /\
    own_enumerable VNull = [] /\
    (Forall (fun k => host_set "Object.prototype" k = SetOwn)
       (Object_keys (own_enumerable ra) ++ Object_keys (own_enumerable rb)) ->
     p = Object_prototype /\
     forall k, k ∈ Object_keys o <->
               k ∈ Object_keys (own_enumerable ra) \/
               k ∈ Object_keys (own_enumerable rb)).
Proof.
  unfold intersect, bind, ret, lift.
  destruct (a x s) as [[ra|ea] s1] eqn:Ha; [|done].
  destruct (b x s1) as [[rb|eb] s2] eqn:Hb; [|done].
  simpl.
  destruct (assign_properties (Object_prototype, []) (own_enumerable ra))
    as [t1|e] eqn:H1; [|done].
  destruct (assign_properties t1 (own_enumerable rb)) as [t2|e] eqn:H2;
    [|done].
  intros [= <- <-]. exists ra, s1, rb, t2.1, t2.2.
  destruct (assign_properties_keys _ _ _ H1 (NoDup_nil_2 (A:=string))) as [Hnd1 Hin1].
  destruct (assign_properties_keys _ _ _ H2 Hnd1) as [Hnd2 Hin2].
  split; [done|]. split; [done|]. split; [done|]. split; [done|].
  split; [|split; [|split; [done|]]].
  - intros k Hk. apply Hin2 in Hk as [Hk|Hk]; [|by right].
    apply Hin1 in Hk as [Hk|Hk]; [|by left]. by apply elem_of_nil in Hk.
  - intros v Ho Hs Hh. destruct v; simpl in *; try done. by destruct (Hh id).
  - intros Hown. apply Forall_app in Hown as [Howna Hownb].
    rewrite assign_properties_own in H1 by done. injection H1 as <-.
    rewrite assign_properties_own in H2 by done. injection H2 as <-.
    split; [done|]. intros k. simpl. rewrite !elem_of_keys_define_props.
    simpl. rewrite elem_of_nil. tauto.
Qed.

Lemma intersect_returns_object_witness :
  (exists p o,
     intersect (W:=unit) validators.number validators.number (VNumber 1) tt =
       (Return (VObjectWith p o), tt) /\
     forall k, k ∉ Object_keys o) /\
  (exists o,
     intersect (W:=unit) (arrayOf validators.string)
       (arrayOf validators.string) (VArray [VString "x"]) tt =
       (Return (VObject o), tt) /\
     "0" ∈ Object_keys o).
Proof.
  split.
  - destruct (intersect_returns_object
                validators.number validators.number (VNumber 1) tt
                (VObject []) tt eq_refl)
      as (ra & s1 & rb & p & o & Ha & Hb & Hr & _ & Hin & _).
    exists p, o. split; [by rewrite <- Hr|].
    injection Ha as <- <-. injection Hb as <-.
    intros k Hk. apply Hin in Hk as [Hk|Hk]; by apply elem_of_nil in Hk.
  - assert (Hrun : intersect (W:=unit) (arrayOf validators.string)
                     (arrayOf validators.string) (VArray [VString "x"]) tt =
                   (Return (VObject [("0", VString "x")]), tt)).
    { vm_compute. reflexivity. }
    destruct (intersect_returns_object
                (arrayOf validators.string) (arrayOf validators.string)
                (VArray [VString "x"]) tt
                (VObject [("0", VString "x")]) tt Hrun)
      as (ra & s1 & rb & p & o & Ha & Hb & Hr & _ & _ & _ & _ & Hown).
    injection Ha as <- <-. injection Hb as <-. injection Hr as <- <-.
    destruct Hown as [_ Hiff].
    + repeat (apply Forall_cons; split; [reflexivity|]). apply Forall_nil_2.
    + eexists. split; [exact Hrun|].
      apply Hiff. left. apply elem_of_cons. by left.
Defined.

(** ** Blank values *)

(** X18.  [blankable(v)] against [optional(nullable(v))]: both return on
    [undefined] and on [null] without running [v], and run [v] on anything
    else, returning what it returns.  They differ on [null], which the first
    turns into [undefined] and the second keeps, and in the words put in
    front of the assertion of [v]. *)
Theorem blankable_vs_optional_nullable
    {W} (v : Validator W) (x : value) (s : W) :
  (x = VUndefined ->
   blankable v x s = (Return VUndefined, s) /\
   optional (nullable v) x s = (Return VUndefined, s)) /\
  (x = VNull ->
   blankable v x s = (Return VUndefined, s) /\
   optional (nullable v) x s = (Return VNull, s)) /\
  (x <> VUndefined -> x <> VNull ->
   match v x s with
   | (Return r, s') =>
       blankable v x s = (Return r, s') /\
       optional (nullable v) x s = (Return r, s')
   | (Throw e, s') =>
       match assertion e with
       | Some m =>
           blankable v x s =
             (Throw (ValidationError ("null, undefined, or " +:+ m)), s') /\
           optional (nullable v) x s =
             (Throw (ValidationError ("undefined or null or " +:+ m)), s')
       | None =>
           blankable v x s = (Throw e, s') /\
           optional (nullable v) x s = (Throw e, s')
       end
   end).
Proof.
  split; [|split].
  - by intros ->.
  - by intros ->.
  - intros Hu Hn.
    unfold blankable, optional, nullable, wrapError, try_catch.
    destruct x; try done; simpl;
      match goal with
      | |- context [v ?y s] => destruct (v y s) as [[r|[m|nm m|y']] s']
      end; simpl; by split.
Qed.

Lemma blankable_vs_optional_nullable_witness :
  blankable (W:=unit) validators.string (VNumber 1) tt =
    (Throw (ValidationError "null, undefined, or a string"), tt) /\
  optional (W:=unit) (nullable validators.string) (VNumber 1) tt =
    (Throw (ValidationError "undefined or null or a string"), tt).
Proof.
  exact (proj2 (proj2 (blankable_vs_optional_nullable
                         validators.string (VNumber 1) tt))
           ltac:(discriminate) ltac:(discriminate)).
Defined.

(** ** Source keys *)

Lemma pluck_entries_source_keys
    {host : Host} {W} (d : list (string * (Validator W * (string -> string))))
    (o o' : list (string * value)) result (s : W) :
  (forall k v t, (k, (v, t)) ∈ d -> obj_get (t k) o = obj_get (t k) o') ->
  pluck_entries (map (fun e => (e.1, MapField e.2.1 e.2.2)) d) (VObject o)
    result s =
  pluck_entries (map (fun e => (e.1, MapField e.2.1 e.2.2)) d) (VObject o')
    result s.
Proof.
  revert result s. induction d as [|[k [v t]] d IH]; intros result s Hd; [done|].
  assert (Hp : forall s0,
            pluck (MapField v t) k (VObject o) s0 =
            pluck (MapField v t) k (VObject o') s0).
  { intros s0. simpl. unfold bind.
    by rewrite (Hd k v t) by (apply elem_of_cons; by left). }
  simpl map. cbn [fst snd].
  destruct (pluck (MapField v t) k (VObject o') s) as [[x|e] s1] eqn:Hx.
  - rewrite (pluck_entries_step _ _ _ _ _ _ _ _ Hx).
    rewrite <- Hp in Hx. rewrite (pluck_entries_step _ _ _ _ _ _ _ _ Hx).
    destruct (if is_undefined x then Return result
              else set_property k x result); [|done].
    apply IH. intros k' v' t' Hin. apply (Hd k' v' t'). apply elem_of_cons.
    by right.
  - cbn [pluck_entries]. unfold bind at 1 3. by rewrite Hp, Hx.
Qed.

(** X19.  A model of key-transforming fields looks at the source keys of its
    fields and at nothing else: two objects with the same values under those
    keys are validated alike, in result, error and effect on the world. *)
Theorem validate_reads_source_keys_only
    {host : Host} {W} (nm : option string)
    (d : list (string * (Validator W * (string -> string))))
    (o o' : list (string * value)) (s : W) :
  NoDup (map fst d) ->
  (forall k v t, (k, (v, t)) ∈ d -> obj_get (t k) o = obj_get (t k) o') ->
  validate (model nm (map (fun e => (e.1, MapField e.2.1 e.2.2)) d))
    (VObject o) s =
  validate (model nm (map (fun e => (e.1, MapField e.2.1 e.2.2)) d))
    (VObject o') s.
Proof.
  intros Hnd Hd.
  assert (Hkeys : Object_keys (map (fun e : string * (Validator W * (string -> string)) =>
                                      (e.1, MapField e.2.1 e.2.2)) d)
                  = map fst d).
  { unfold Object_keys. by rewrite map_map. }
  rewrite !validate_object by (by rewrite ?Hkeys).
  by rewrite (pluck_entries_source_keys d o o').
Qed.

Lemma validate_reads_source_keys_only_witness :
  validate (W:=unit)
    (model (Some "Nameable")
       [("fullName", MapField validators.string snake)])
    (VObject [("full_name", VString "Al"); ("fullName", VNumber 1)]) tt =
  validate (W:=unit)
    (model (Some "Nameable")
       [("fullName", MapField validators.string snake)])
    (VObject [("full_name", VString "Al")]) tt.
Proof.
  apply (validate_reads_source_keys_only (Some "Nameable")
           [("fullName", (validators.string, snake))]).
  - by apply (bool_decide_unpack _).
  - intros k v t Hin.
    apply elem_of_cons in Hin as [[= -> -> ->]|Hin]; [reflexivity|].
    by apply elem_of_nil in Hin.
Defined.

